(** * Student records application (app.py): model and verification

    The program is a Flask application with four request handlers over one
    table, [student], reached through an SQLAlchemy session.  The embedding
    follows the source top-down:

    - [Student.t] is the mapped class of lines 33-37;
    - a [table] is the content of the [student] table, with the constraints
      that the column declarations state ([primary_key], [unique]);
    - a [session] is [db.session]: the committed table, the view of the open
      transaction and the unit of work (objects added, modified, deleted but
      not yet flushed);
    - the handlers [index], [add_student], [edit_student], [delete_student]
      are written in a state-and-exception monad [M] over the session, one
      monadic step per source statement;
    - [serve] runs one handler as one request: a fresh session on the
      committed table, and whatever was not committed is discarded when the
      request ends. *)

From Stdlib Require Import ZArith List String Ascii Bool Lia Sorted Permutation.
Import ListNotations.

#[local] Open Scope string_scope.
#[local] Open Scope list_scope.
#[local] Open Scope Z_scope.

(* ================================================================= *)
(** ** Values of the [age] column (line 37) *)

(** What the attribute [age] holds.  A handler assigns the text of a form
    field to it ([Text]); no handler converts that text.  The column is
    declared [db.Integer], and what the table keeps of a text is decided by
    the store when the row is written ([integer_affinity] below): an integer,
    the text itself, or, for a number literal that is not a 64-bit integer
    literal, the number that the store reads from the literal as a float
    (kept as that float, or as the integer equal to it).  That last number
    is not computed here: [Numeric] keeps the literal that stands for it,
    and no statement below says what it is. *)
Inductive value : Type :=
| Integer (z : Z)
| Numeric (literal : string)
| Text (s : string).

(** [==] of Python between two such values: a text equals no number. *)
Definition value_eqb (v w : value) : bool :=
  match v, w with
  | Integer a, Integer b => a =? b
  | Numeric a, Numeric b => String.eqb a b
  | Text a, Text b => String.eqb a b
  | _, _ => false
  end.

(** The keys and integers that the store can hold: 64 bits, signed. *)
Definition int64 (z : Z) : bool := (- 2 ^ 63 <=? z) && (z <? 2 ^ 63).

(** *** Number literals, as the store reads a text *)

Definition is_space (c : ascii) : bool :=
  let n := N_of_ascii c in ((n =? 32) || ((9 <=? n) && (n <=? 13)))%N.

Definition digit_of (c : ascii) : option Z :=
  let n := Z.of_N (N_of_ascii c) in
  if (48 <=? n) && (n <=? 57) then Some (n - 48) else None.

Fixpoint skip_spaces (s : string) : string :=
  match s with
  | String c s' => if is_space c then skip_spaces s' else s
  | EmptyString => s
  end.

(** The digits at the front of [s]: the number they write after the digits
    of [acc], how many they are after [count], and what follows them. *)
Fixpoint read_digits (s : string) (acc : Z) (count : nat)
  : Z * nat * string :=
  match s with
  | String c s' =>
      match digit_of c with
      | Some d => read_digits s' (10 * acc + d) (S count)
      | None => (acc, count, s)
      end
  | EmptyString => (acc, count, s)
  end.

Inductive literal : Type :=
| integer_literal (z : Z)   (* white space, sign, digits, white space *)
| real_literal              (* the same with a point or an exponent *)
| not_a_number.

(** White space, an optional sign, digits with an optional point among
    them (at least one digit), an optional exponent ([e] or [E], an
    optional sign, at least one digit), white space; nothing else. *)
Definition number_literal (s : string) : literal :=
  let s := skip_spaces s in
  let '(negative, s) :=
    match s with
    | String "-" s' => (true, s')
    | String "+" s' => (false, s')
    | _ => (false, s)
    end in
  let '(whole, digits, s) := read_digits s 0 0 in
  let '(digits, point, s) :=
    match s with
    | String "." s' =>
        let '(_, digits', s'') := read_digits s' 0 digits in
        (digits', true, s'')
    | _ => (digits, false, s)
    end in
  let '(exponent_ok, exponent, s) :=
    match s with
    | String c s' =>
        if (Ascii.eqb c "e" || Ascii.eqb c "E")%bool
        then
          let s' :=
            match s' with
            | String "-" s'' => s''
            | String "+" s'' => s''
            | _ => s'
            end in
          let '(_, digits', s'') := read_digits s' 0 0 in
          (negb (Nat.eqb digits' 0), true, s'')
        else (true, false, s)
    | EmptyString => (true, false, s)
    end in
  match skip_spaces s with
  | EmptyString =>
      if negb (Nat.eqb digits 0) && exponent_ok
      then if point || exponent
           then real_literal
           else integer_literal (if negative then - whole else whole)
      else not_a_number
  | String _ _ => not_a_number
  end.

(** What an [INTEGER] column keeps of a text that is written to it. *)
Definition integer_affinity (s : string) : value :=
  match number_literal s with
  | integer_literal z => if int64 z then Integer z else Numeric s
  | real_literal => Numeric s
  | not_a_number => Text s
  end.

(** What the column keeps of a value in general: only a text is read. *)
Definition column_affinity (v : value) : value :=
  match v with
  | Text s => integer_affinity s
  | _ => v
  end.

(** A value that can be found in the column: a text there is not a number
    literal. *)
Definition from_column (v : value) : Prop := column_affinity v = v.

(* ================================================================= *)
(** ** The mapped class (lines 33-37) *)

(** [id] is the integer primary key.  [name] and [email] are texts, which
    the table keeps as they are. *)
Module Student.
Record t : Type := mk {
  id : Z;
  name : string;
  email : string;
  age : value
}.

Definition set_id (v : Z) (s : t) : t := mk v (name s) (email s) (age s).
Definition set_name (v : string) (s : t) : t := mk (id s) v (email s) (age s).
Definition set_email (v : string) (s : t) : t := mk (id s) (name s) v (age s).
Definition set_age (v : string) (s : t) : t :=
  mk (id s) (name s) (email s) (Text v).

(** The three columns other than the identity. *)
Definition payload (s : t) : string * string * value :=
  (name s, email s, age s).

(** Lines 39-40: [f"<Student {self.name}>"]. *)
Definition __repr__ (self : t) : string :=
  String.append "<Student " (String.append (name self) ">").
End Student.

(* ================================================================= *)
(** ** Ordering by a key *)

Section Ordered.
Context {A : Type} (key : A -> Z).

(** [place x l] puts [x] in front of the first element whose key is not
    smaller than its own. *)
Fixpoint place (x : A) (l : list A) : list A :=
  match l with
  | [] => [x]
  | y :: l' => if key x <=? key y then x :: y :: l' else y :: place x l'
  end.

(** Sorting by ascending key (stable). *)
Definition order_by (l : list A) : list A := fold_right place [] l.

(** Keys strictly increase along the list. *)
Definition ascending (l : list A) : Prop :=
  StronglySorted Z.lt (map key l).
End Ordered.

(** [enumerate(xs, start)] of Python. *)
Fixpoint enumerate {A : Type} (start : Z) (xs : list A) : list (Z * A) :=
  match xs with
  | [] => []
  | x :: xs' => (start, x) :: enumerate (start + 1) xs'
  end.

(* ================================================================= *)
(** ** The table and its statements *)

(** The rows of [student] in the order of a table scan, which for a table
    whose primary key is an integer is the order of the key. *)
Definition table : Type := list Student.t.

Definition ids (t : table) : list Z := map Student.id t.
Definition emails (t : table) : list string := map Student.email t.

Definition has_pk (pk : Z) (t : table) : bool :=
  existsb (fun r => Student.id r =? pk) t.

Definition has_email (e : string) (t : table) : bool :=
  existsb (fun r => String.eqb (Student.email r) e) t.

Definition select_pk (pk : Z) (t : table) : option Student.t :=
  find (fun r => Student.id r =? pk) t.

Fixpoint max_rowid (t : table) : option Z :=
  match t with
  | [] => None
  | r :: t' =>
      match max_rowid t' with
      | None => Some (Student.id r)
      | Some m => Some (Z.max (Student.id r) m)
      end
  end.

(** The key given to a row inserted without one: 1 in an empty table, one
    more than the largest key in use otherwise.  (When the largest key in
    use is the largest 64-bit integer the table draws an unused key at
    random instead; that draw is not followed here.) *)
Definition next_rowid (t : table) : Z :=
  match max_rowid t with
  | None => 1
  | Some m => m + 1
  end.

(** What a request can raise. *)
Inductive exn : Type :=
| NotFound                            (* get_or_404: HTTP 404 *)
| OverflowError                       (* an integer beyond 64 bits *)
| BadRequestKeyError (key : string)   (* request.form[key], key absent *)
| IntegrityError (msg : string)       (* a constraint of the table fails *)
| StaleDataError.                     (* UPDATE matched no row *)

Inductive outcome (A : Type) : Type :=
| Return (a : A)
| Raise (e : exn).
Arguments Return {A} a.
Arguments Raise {A} e.

Definition exn_message (e : exn) : string :=
  match e with
  | NotFound => "404 Not Found"
  | OverflowError => "Python int too large to convert to SQLite INTEGER"
  | BadRequestKeyError _ => "400 Bad Request"
  | IntegrityError msg => msg
  | StaleDataError => "UPDATE statement matched no row"
  end.

(** INSERT INTO student (name, email, age): [email] is [unique=True], the
    key is given by the table ([next_rowid] follows it while the largest
    key in use is below the largest 64-bit integer), and the column keeps
    of the age what [integer_affinity] says. *)
Definition sql_insert (row : string * string * string) (t : table)
  : outcome table :=
  let '(n, e, a) := row in
  if has_email e t
  then Raise (IntegrityError "UNIQUE constraint failed: student.email")
  else Return (place Student.id
                 (Student.mk (next_rowid t) n e (integer_affinity a)) t).

(** DELETE FROM student WHERE id = pk. *)
Definition sql_delete (pk : Z) (t : table) : table :=
  filter (fun r => negb (Student.id r =? pk)) t.

(** The row that an UPDATE leaves in place of [old] when the object has
    become [new]: the statement sets the attributes that are no longer equal
    to those of the row, and the column keeps of a new age what
    [column_affinity] says. *)
Definition written (old new : Student.t) : Student.t :=
  Student.mk (Student.id new) (Student.name new) (Student.email new)
    (if value_eqb (Student.age new) (Student.age old)
     then Student.age old
     else column_affinity (Student.age new)).

(** UPDATE student SET ... WHERE id = pk, for the object [new].  A changed
    key must not be the key of a row, a changed email must not be the email
    of a row. *)
Definition sql_update (pk : Z) (new : Student.t) (t : table)
  : outcome table :=
  match select_pk pk t with
  | None => Raise StaleDataError
  | Some old =>
      if negb (Student.id new =? pk) && has_pk (Student.id new) t
      then Raise (IntegrityError "UNIQUE constraint failed: student.id")
      else if negb (String.eqb (Student.email new) (Student.email old))
              && has_email (Student.email new) t
      then Raise (IntegrityError "UNIQUE constraint failed: student.email")
      else Return (place Student.id (written old new) (sql_delete pk t))
  end.

(* ================================================================= *)
(** ** The session (line 27: [db = SQLAlchemy(app)]) *)

(** [disk] is the committed table; [tx] is the table as the open transaction
    sees it; [new], [dirty] and [deleted] are the unit of work.  [dirty] maps
    the key under which an object was loaded to its present attributes. *)
Record session : Type := mkSession {
  autoflush : bool;
  disk : table;
  tx : table;
  new : list (string * string * string);
  dirty : list (Z * Student.t);
  deleted : list Z
}.

(** The session a request starts with.  Line 27 passes no session options,
    so [autoflush] has the library's default, [True]: a query first flushes
    the unit of work. *)
Definition db_session (db : table) : session :=
  mkSession true db db [] [] [].

Definition M (A : Type) : Type := session -> outcome A * session.

Definition ret {A : Type} (a : A) : M A := fun s => (Return a, s).

Definition raise {A : Type} (e : exn) : M A := fun s => (Raise e, s).

Definition bind {A B : Type} (m : M A) (k : A -> M B) : M B :=
  fun s =>
    match m s with
    | (Return a, s') => k a s'
    | (Raise e, s') => (Raise e, s')
    end.

(** [try: m  except Exception as e: h e]. *)
Definition try_except {A : Type} (m : M A) (h : exn -> M A) : M A :=
  fun s =>
    match m s with
    | (Return a, s') => (Return a, s')
    | (Raise e, s') => h e s'
    end.

Declare Scope session_scope.
Delimit Scope session_scope with M.
Notation "x <- m ;; k" := (bind m (fun x => k))
  (at level 61, m at next level, right associativity) : session_scope.
Notation "m ;; k" := (bind m (fun _ => k))
  (at level 61, right associativity) : session_scope.
#[local] Open Scope session_scope.

Fixpoint for_each {A : Type} (xs : list A) (body : A -> M unit) : M unit :=
  match xs with
  | [] => ret tt
  | x :: xs' => body x ;; for_each xs' body
  end.

(** *** The unit of work *)

Fixpoint record_dirty (key : Z) (obj : Student.t) (d : list (Z * Student.t))
  : list (Z * Student.t) :=
  match d with
  | [] => [(key, obj)]
  | (k, o) :: d' =>
      if k =? key then (k, obj) :: d' else (k, o) :: record_dirty key obj d'
  end.

Fixpoint lookup_dirty (key : Z) (d : list (Z * Student.t))
  : option Student.t :=
  match d with
  | [] => None
  | (k, o) :: d' => if k =? key then Some o else lookup_dirty key d'
  end.

Fixpoint run_updates (us : list (Z * Student.t)) (t : table)
  : outcome table :=
  match us with
  | [] => Return t
  | (pk, obj) :: us' =>
      match sql_update pk obj t with
      | Return t' => run_updates us' t'
      | Raise e => Raise e
      end
  end.

Fixpoint run_inserts (rows : list (string * string * string)) (t : table)
  : outcome table :=
  match rows with
  | [] => Return t
  | row :: rows' =>
      match sql_insert row t with
      | Return t' => run_inserts rows' t'
      | Raise e => Raise e
      end
  end.

Definition run_deletes (pks : list Z) (t : table) : table :=
  fold_left (fun t' pk => sql_delete pk t') pks t.

(** The statements of one flush: the UPDATEs of the modified objects in the
    order of the keys they were loaded under, then the INSERTs in the order
    of [add], then the DELETEs. *)
Definition unit_of_work (s : session) : outcome table :=
  match run_updates (order_by fst (dirty s)) (tx s) with
  | Raise e => Raise e
  | Return t1 =>
      match run_inserts (new s) t1 with
      | Raise e => Raise e
      | Return t2 => Return (run_deletes (deleted s) t2)
      end
  end.

(** [db.session.rollback()]. *)
Definition rollback : M unit :=
  fun s => (Return tt, mkSession (autoflush s) (disk s) (disk s) [] [] []).

(** A flush that fails rolls the transaction back and raises. *)
Definition flush : M unit :=
  fun s =>
    match unit_of_work s with
    | Return t => (Return tt, mkSession (autoflush s) (disk s) t [] [] [])
    | Raise e => (Raise e, mkSession (autoflush s) (disk s) (disk s) [] [] [])
    end.

(** [db.session.commit()]. *)
Definition commit : M unit :=
  flush ;;
  fun s => (Return tt, mkSession (autoflush s) (tx s) (tx s) [] [] []).

(** [db.session.add(Student(name=..., email=..., age=...))]. *)
Definition session_add (row : string * string * string) : M unit :=
  fun s =>
    (Return tt,
     mkSession (autoflush s) (disk s) (tx s) (new s ++ [row]) (dirty s)
       (deleted s)).

(** [db.session.delete(obj)]. *)
Definition session_delete (obj : Student.t) : M unit :=
  fun s =>
    (Return tt,
     mkSession (autoflush s) (disk s) (tx s) (new s) (dirty s)
       (deleted s ++ [Student.id obj])).

(** [obj.attr = v]: the object, loaded under its present [id], is modified
    in place; the handler goes on with the modified object. *)
Definition setattr (obj : Student.t) (assign : Student.t -> Student.t)
  : M Student.t :=
  fun s =>
    (Return (assign obj),
     mkSession (autoflush s) (disk s) (tx s) (new s)
       (record_dirty (Student.id obj) (assign obj) (dirty s)) (deleted s)).

(** *** Queries *)

(** What a query does before its SELECT: with [autoflush], the unit of work
    is flushed, and a flush that fails raises out of the query. *)
Definition before_query : M unit :=
  fun s => if autoflush s then flush s else (Return tt, s).

(** A row comes back as the object already loaded under its key, if that
    object has changes not yet flushed. *)
Definition loaded (s : session) (r : Student.t) : Student.t :=
  match lookup_dirty (Student.id r) (dirty s) with
  | Some obj => obj
  | None => r
  end.

(** [Student.query.all()]. *)
Definition query_all : M (list Student.t) :=
  before_query ;;
  fun s => (Return (map (loaded s) (tx s)), s).

(** [Student.query.order_by(Student.id).all()]. *)
Definition query_order_by_id : M (list Student.t) :=
  before_query ;;
  fun s => (Return (map (loaded s) (order_by Student.id (tx s))), s).

(** [Student.query.filter(...).first()]. *)
Definition query_filter_first (criteria : Student.t -> bool)
  : M (option Student.t) :=
  before_query ;;
  fun s => (Return (option_map (loaded s) (find criteria (tx s))), s).

(** [Student.query.get_or_404(id)].  The key is bound to the SELECT as a
    64-bit integer.  A key beyond 64 bits cannot be bound, and the lookup
    raises [OverflowError] instead of answering; no row has such a key, so
    this is the answer to a key that is not found and is beyond 64 bits. *)
Definition get_or_404 (id : Z) : M Student.t :=
  before_query ;;
  fun s =>
    match select_pk id (tx s) with
    | Some r => (Return (loaded s r), s)
    | None => if int64 id then (Raise NotFound, s) else (Raise OverflowError, s)
    end.

(* ================================================================= *)
(** ** Requests and responses *)

Inductive http_method : Type := GET | POST.

(** [request.form] is a multi-dict: indexing gives the first value of the
    key and raises when the key is absent. *)
Definition form_data : Type := list (string * string).

Record request : Type := mkRequest {
  method : http_method;
  form : form_data
}.

Fixpoint form_getitem (f : form_data) (key : string) : option string :=
  match f with
  | [] => None
  | (k, v) :: f' => if String.eqb k key then Some v else form_getitem f' key
  end.

Definition request_form (req : request) (key : string) : M string :=
  match form_getitem (form req) key with
  | Some v => ret v
  | None => raise (BadRequestKeyError key)
  end.

Inductive response : Type :=
| render_index (students : list Student.t)     (* index.html *)
| render_add                                   (* add.html *)
| render_edit (student : Student.t) (error : option string)  (* edit.html *)
| redirect (location : string).

(** [url_for('index')]: the route of [index] (line 53). *)
Definition url_for_index : string := "/".

(* ================================================================= *)
(** ** The handlers *)

(** Lines 53-58. *)
Definition index : M response :=
  students <- query_all ;;
  ret (render_index students).

(** Lines 63-82. *)
Definition add_student (req : request) : M response :=
  match method req with
  | POST =>
      name <- request_form req "name" ;;
      email <- request_form req "email" ;;
      age <- request_form req "age" ;;
      session_add (name, email, age) ;;
      commit ;;
      ret (redirect url_for_index)
  | GET => ret render_add
  end.

(** Lines 87-115. *)
Definition edit_student (id : Z) (req : request) : M response :=
  student <- get_or_404 id ;;
  match method req with
  | POST =>
      v <- request_form req "name" ;;
      student <- setattr student (Student.set_name v) ;;
      v <- request_form req "email" ;;
      student <- setattr student (Student.set_email v) ;;
      v <- request_form req "age" ;;
      student <- setattr student (Student.set_age v) ;;
      existing <- query_filter_first
                    (fun r => String.eqb (Student.email r) (Student.email student)
                              && negb (Student.id r =? id)) ;;
      match existing with
      | Some _ => ret (render_edit student (Some "Email already exists!"))
      | None =>
          try_except
            (commit ;; ret (redirect url_for_index))
            (fun e =>
               rollback ;;
               ret (render_edit student
                      (Some (String.append "Update failed: " (exn_message e)))))
      end
  | GET => ret (render_edit student None)
  end.

(** Lines 120-132. *)
Definition delete_student (id : Z) : M response :=
  student <- get_or_404 id ;;
  session_delete student ;;
  commit ;;
  students <- query_order_by_id ;;
  for_each (enumerate 1 students)
    (fun '(i, s) => setattr s (Student.set_id i) ;; ret tt) ;;
  commit ;;
  ret (redirect url_for_index).

(** One request: the handler runs in a fresh session; when the request ends
    the session is removed, and only what was committed remains. *)
Definition serve (handler : M response) (db : table)
  : outcome response * table :=
  let '(r, s) := handler (db_session db) in (r, disk s).

(** The routes.  [<int:id>] matches no negative number. *)
Inductive route : Type :=
| Index
| Add (req : request)
| Edit (id : Z) (req : request)
| Delete (id : Z).

Definition app (r : route) (db : table) : outcome response * table :=
  match r with
  | Index => serve index db
  | Add req => serve (add_student req) db
  | Edit id req =>
      if id <? 0 then (Raise NotFound, db) else serve (edit_student id req) db
  | Delete id =>
      if id <? 0 then (Raise NotFound, db) else serve (delete_student id) db
  end.

(** The states of the store: what a sequence of requests makes of the empty
    table. *)
Inductive reachable : table -> Prop :=
| reach_empty : reachable []
| reach_step : forall r db, reachable db -> reachable (snd (app r db)).

(** The status line of the answer: Flask turns [NotFound] and the bad
    request into their HTTP errors and any other exception into 500. *)
Definition http_status (r : outcome response) : Z :=
  match r with
  | Return (redirect _) => 302
  | Return _ => 200
  | Raise NotFound => 404
  | Raise (BadRequestKeyError _) => 400
  | Raise _ => 500
  end.

(* ================================================================= *)
(** ** Notions used by the statements *)

(** What the table's declaration and the way keys are given out maintain:
    rows in the order of strictly increasing keys, keys from 1 up, no email
    twice. *)
Record table_ok (t : table) : Prop := mk_table_ok {
  ok_order : ascending Student.id t;
  ok_rowid : Forall (fun r => 1 <= Student.id r) t;
  ok_email : NoDup (emails t)
}.

(** The same as a test that computes. *)
Fixpoint increasingb (keys : list Z) : bool :=
  match keys with
  | [] => true
  | k :: keys' => forallb (fun k' => k <? k') keys' && increasingb keys'
  end.

Fixpoint distinctb (l : list string) : bool :=
  match l with
  | [] => true
  | e :: l' => negb (existsb (String.eqb e) l') && distinctb l'
  end.

Definition table_okb (t : table) : bool :=
  increasingb (ids t)
  && forallb (fun r => 1 <=? Student.id r) t
  && distinctb (emails t).

(** The rows with the keys [start], [start + 1], ... in place of their own. *)
Definition renumber (start : Z) (rows : list Student.t) : table :=
  map (fun '(i, s) => Student.set_id i s) (enumerate start rows).

(** The unit of work that the loop of [delete_student] builds. *)
Definition renumber_dirty (start : Z) (rows : list Student.t)
  : list (Z * Student.t) :=
  map (fun '(i, s) => (Student.id s, Student.set_id i s))
    (enumerate start rows).

(** [1; 2; ...; n]. *)
Definition one_to (n : nat) : list Z := map Z.of_nat (seq 1 n).

(** What is stated of the value [v] that the integer column keeps of the
    text [a]: it is the integer that [a] writes when [a] is a 64-bit
    integer literal, and [a] itself when [a] is not a number literal.  Of a
    number literal of another kind nothing is stated: the store reads it as
    a float. *)
Definition column_keeps (a : string) (v : value) : Prop :=
  (forall z, number_literal a = integer_literal z -> int64 z = true ->
             v = Integer z) /\
  (number_literal a = not_a_number -> v = Text a).

(** What [get_or_404] raises for a key that no row has. *)
Definition absent (id : Z) : exn :=
  if int64 id then NotFound else OverflowError.

(** The row that the edit of [old] with the fields [n], [e], [a] leaves. *)
Definition edited (old : Student.t) (n e a : string) : Student.t :=
  written old (Student.mk (Student.id old) n e (Text a)).

(** The row that an edit writes over the row [id]. *)
Definition overwrite (id : Z) (new : Student.t) (t : table) : table :=
  map (fun r => if Student.id r =? id then new else r) t.

(** The condition of the query of lines 99-102. *)
Definition other_with_email (e : string) (id : Z) (r : Student.t) : bool :=
  String.eqb (Student.email r) e && negb (Student.id r =? id).

Definition post (f : form_data) : request := mkRequest POST f.

Definition student_form (n e a : string) : form_data :=
  [("name", n); ("email", e); ("age", a)].

(** The first of the fields read by lines 67-69 and 94-96, in the order
    they are read, that the form does not have. *)
Definition first_missing (f : form_data) : option string :=
  find (fun key => match form_getitem f key with
                   | None => true
                   | Some _ => false
                   end)
       ["name"; "email"; "age"].

(** The keys of the rows are [k], [k + 1], ... in this order. *)
Fixpoint counts_from (k : Z) (rows : list Student.t) : Prop :=
  match rows with
  | [] => True
  | r :: rows' => Student.id r = k /\ counts_from (k + 1) rows'
  end.

(** What becomes of a row when the key [pk] leaves a table without gaps:
    below [pk] it stays, above it moves one key down. *)
Definition close_gap (pk : Z) (r : Student.t) : Student.t :=
  if Student.id r <? pk then r else Student.set_id (Student.id r - 1) r.

(** Rows of the examples. *)
Definition alice : Student.t := Student.mk 1 "Alice" "a@x.com" (Integer 20).
Definition bob : Student.t := Student.mk 2 "Bob" "b@x.com" (Integer 21).
Definition carol : Student.t := Student.mk 3 "Carol" "c@x.com" (Integer 22).

(* ================================================================= *)
(** ** Facts about ordering by a key *)

Section OrderedFacts.
Context {A : Type} (key : A -> Z).

Lemma ascending_cons (x : A) (l : list A) :
  ascending key (x :: l) <->
  Forall (fun y => key x < key y) l /\ ascending key l.
Proof.
  unfold ascending; cbn; split.
  - intros H; apply StronglySorted_inv in H; destruct H as [Hs Hf].
    split; [exact (proj1 (Forall_map key _ l) Hf) | exact Hs].
  - intros [Hf Hs]; constructor;
      [exact Hs | exact (proj2 (Forall_map key _ l) Hf)].
Qed.

Lemma ascending_NoDup (l : list A) : ascending key l -> NoDup (map key l).
Proof.
  induction l as [|a l IH]; intros H; cbn.
  - constructor.
  - apply ascending_cons in H; destruct H as [Hf Hs].
    constructor; [| exact (IH Hs)].
    intros Hin; apply in_map_iff in Hin; destruct Hin as [y [Hy Hin]].
    rewrite Forall_forall in Hf; specialize (Hf y Hin); lia.
Qed.

Lemma place_between (x : A) (l1 l2 : list A) :
  Forall (fun y => key y < key x) l1 ->
  Forall (fun y => key x <= key y) l2 ->
  place key x (l1 ++ l2) = l1 ++ x :: l2.
Proof.
  intros H1 H2; induction H1 as [|a l1 Ha _ IH]; cbn.
  - destruct H2 as [|b l2 Hb _]; cbn; [reflexivity |].
    destruct (Z.leb_spec (key x) (key b)); [reflexivity | lia].
  - destruct (Z.leb_spec (key x) (key a)); [lia | now rewrite IH].
Qed.

Lemma place_front (x : A) (l : list A) :
  Forall (fun y => key x <= key y) l -> place key x l = x :: l.
Proof. intros H; exact (place_between x [] l (Forall_nil _) H). Qed.

Lemma place_Permutation (x : A) (l : list A) :
  Permutation (place key x l) (x :: l).
Proof.
  induction l as [|a l IH]; cbn; [reflexivity |].
  destruct (key x <=? key a); [reflexivity |].
  rewrite IH; apply perm_swap.
Qed.

Lemma place_ascending (x : A) (l : list A) :
  ascending key l -> ~ In (key x) (map key l) -> ascending key (place key x l).
Proof.
  induction l as [|a l IH]; cbn [place map In]; intros Hs Hn.
  - apply ascending_cons; split; constructor.
  - apply ascending_cons in Hs; destruct Hs as [Hf Hs].
    destruct (Z.leb_spec (key x) (key a)) as [Hle | Hgt].
    + assert (Hlt : key x < key a)
        by (destruct (Z.eq_dec (key a) (key x)); [tauto | lia]).
      apply ascending_cons; split.
      * constructor; [exact Hlt |].
        eapply Forall_impl; [| exact Hf]; cbn; intros; lia.
      * apply ascending_cons; split; assumption.
    + apply ascending_cons; split.
      * eapply Permutation_Forall;
          [symmetry; apply place_Permutation |].
        constructor; [lia | exact Hf].
      * apply IH; [exact Hs | tauto].
Qed.

Lemma order_by_ascending (l : list A) : ascending key l -> order_by key l = l.
Proof.
  induction l as [|a l IH]; intros H; [reflexivity |].
  apply ascending_cons in H; destruct H as [Hf Hs].
  change (place key a (order_by key l) = a :: l).
  rewrite (IH Hs); apply place_front.
  eapply Forall_impl; [| exact Hf]; cbn; intros; lia.
Qed.
End OrderedFacts.

(* ================================================================= *)
(** ** Facts about the table *)

Lemma select_pk_Some (pk : Z) (t : table) (r : Student.t) :
  select_pk pk t = Some r -> In r t /\ Student.id r = pk.
Proof.
  intros H; apply find_some in H; destruct H as [Hin Heq].
  split; [exact Hin | now apply Z.eqb_eq].
Qed.

Lemma select_pk_None (pk : Z) (t : table) :
  select_pk pk t = None <-> ~ In pk (ids t).
Proof.
  unfold select_pk, ids; induction t as [|a t IH]; cbn.
  - tauto.
  - destruct (Z.eqb_spec (Student.id a) pk) as [E | E].
    + split; [discriminate | tauto].
    + rewrite IH; tauto.
Qed.

Lemma select_pk_In (pk : Z) (t : table) :
  In pk (ids t) -> exists r, select_pk pk t = Some r.
Proof.
  intros Hin; destruct (select_pk pk t) as [r|] eqn:E; [now exists r |].
  apply select_pk_None in E; tauto.
Qed.

Lemma has_pk_true (pk : Z) (t : table) :
  has_pk pk t = true <-> In pk (ids t).
Proof.
  unfold has_pk, ids; rewrite existsb_exists, in_map_iff.
  split; intros [r [H1 H2]]; exists r.
  - apply Z.eqb_eq in H2; tauto.
  - split; [tauto | now apply Z.eqb_eq].
Qed.

Lemma has_pk_false (pk : Z) (t : table) :
  has_pk pk t = false <-> ~ In pk (ids t).
Proof.
  rewrite <- has_pk_true; destruct (has_pk pk t); split; intuition congruence.
Qed.

Lemma has_email_true (e : string) (t : table) :
  has_email e t = true <-> In e (emails t).
Proof.
  unfold has_email, emails; rewrite existsb_exists, in_map_iff.
  split; intros [r [H1 H2]]; exists r.
  - apply String.eqb_eq in H2; tauto.
  - split; [tauto | now apply String.eqb_eq].
Qed.

Lemma has_email_false (e : string) (t : table) :
  has_email e t = false <-> ~ In e (emails t).
Proof.
  rewrite <- has_email_true; destruct (has_email e t);
    split; intuition congruence.
Qed.

Lemma next_rowid_above (t : table) :
  Forall (fun r => Student.id r < next_rowid t) t.
Proof.
  unfold next_rowid; induction t as [|a t IH]; cbn; [constructor |].
  destruct (max_rowid t) as [m|] eqn:E.
  - constructor; [lia |].
    eapply Forall_impl; [| exact IH]; cbn; intros; lia.
  - destruct t as [|b t]; [constructor; [lia | constructor] |].
    cbn in E; destruct (max_rowid t); discriminate.
Qed.

Lemma next_rowid_from_1 (t : table) :
  Forall (fun r => 1 <= Student.id r) t -> 1 <= next_rowid t.
Proof.
  intros H; pose proof (next_rowid_above t) as Ha.
  destruct H as [|a t Ha1 _]; [cbn; lia |].
  apply Forall_inv in Ha; lia.
Qed.

Lemma NoDup_map_injective {A B : Type} (f : A -> B) (l : list A) (x y : A) :
  NoDup (map f l) -> In x l -> In y l -> f x = f y -> x = y.
Proof.
  induction l as [|a l IH]; cbn; intros Hnd Hx Hy E; [tauto |].
  apply NoDup_cons_iff in Hnd; destruct Hnd as [Hn Hnd].
  destruct Hx as [-> | Hx], Hy as [-> | Hy]; [reflexivity | | | now apply IH].
  - exfalso; apply Hn; rewrite E; now apply in_map.
  - exfalso; apply Hn; rewrite <- E; now apply in_map.
Qed.

Lemma emails_filter (keep : Student.t -> bool) (t : table) :
  NoDup (emails t) -> NoDup (emails (filter keep t)).
Proof.
  unfold emails; induction t as [|a t IH]; cbn; intros Hnd; [constructor |].
  apply NoDup_cons_iff in Hnd; destruct Hnd as [Hn Hnd].
  destruct (keep a); cbn; [| now apply IH].
  constructor; [| now apply IH].
  intros Hin; apply Hn; apply in_map_iff in Hin.
  destruct Hin as [y [E Hy]]; apply filter_In in Hy.
  rewrite <- E; apply in_map; tauto.
Qed.

Lemma ascending_filter {A : Type} (key : A -> Z) (p : A -> bool)
      (l : list A) :
  ascending key l -> ascending key (filter p l).
Proof.
  induction l as [|a l IH]; cbn; intros H; [exact H |].
  apply ascending_cons in H; destruct H as [Hf Hs].
  destruct (p a); [| now apply IH].
  apply ascending_cons; split; [| now apply IH].
  rewrite Forall_forall in *; intros y Hy; apply filter_In in Hy.
  apply Hf; tauto.
Qed.

(** A row found by its key splits an ordered table around it. *)
Lemma table_split (pk : Z) (t : table) (r : Student.t) :
  ascending Student.id t -> select_pk pk t = Some r ->
  exists l1 l2,
    t = l1 ++ r :: l2 /\
    Forall (fun y => Student.id y < pk) l1 /\
    Forall (fun y => pk < Student.id y) l2.
Proof.
  unfold select_pk; induction t as [|a t IH]; cbn; intros Hs Hf;
    [discriminate |].
  apply ascending_cons in Hs; destruct Hs as [Ha Hs].
  destruct (Z.eqb_spec (Student.id a) pk) as [E | E].
  - injection Hf as ->; exists [], t; subst pk; repeat split;
      [constructor | exact Ha].
  - destruct (IH Hs Hf) as [l1 [l2 [-> [H1 H2]]]].
    exists (a :: l1), l2; repeat split; [| exact H2].
    constructor; [| exact H1].
    apply find_some in Hf; destruct Hf as [Hin Heq].
    apply Z.eqb_eq in Heq; rewrite Forall_forall in Ha.
    specialize (Ha r Hin); lia.
Qed.

Lemma sql_delete_absent (pk : Z) (t : table) :
  Forall (fun y => Student.id y <> pk) t -> sql_delete pk t = t.
Proof.
  intros H; unfold sql_delete; apply forallb_filter_id, forallb_forall.
  rewrite Forall_forall in H; intros y Hy; specialize (H y Hy).
  now apply negb_true_iff, Z.eqb_neq.
Qed.

Lemma sql_delete_split (r : Student.t) (l1 l2 : table) :
  Forall (fun y => Student.id y < Student.id r) l1 ->
  Forall (fun y => Student.id r < Student.id y) l2 ->
  sql_delete (Student.id r) (l1 ++ r :: l2) = l1 ++ l2.
Proof.
  intros H1 H2; unfold sql_delete; rewrite filter_app; cbn.
  rewrite Z.eqb_refl; cbn.
  fold (sql_delete (Student.id r) l1); fold (sql_delete (Student.id r) l2).
  rewrite !sql_delete_absent; [reflexivity | |].
  - eapply Forall_impl; [| exact H2]; cbn; intros; lia.
  - eapply Forall_impl; [| exact H1]; cbn; intros; lia.
Qed.

Lemma select_pk_skip (pk : Z) (l1 l2 : table) :
  Forall (fun y => Student.id y <> pk) l1 ->
  select_pk pk (l1 ++ l2) = select_pk pk l2.
Proof.
  unfold select_pk; induction 1 as [|a l1 Ha _ IH]; cbn; [reflexivity |].
  now apply Z.eqb_neq in Ha; rewrite Ha.
Qed.

Lemma sql_delete_ok (pk : Z) (t : table) :
  table_ok t -> table_ok (sql_delete pk t).
Proof.
  intros [Ho Hr He]; unfold sql_delete; split.
  - now apply ascending_filter.
  - rewrite Forall_forall in *; intros y Hy; apply filter_In in Hy.
    apply Hr; tauto.
  - now apply emails_filter.
Qed.

Lemma sql_delete_ids (pk x : Z) (t : table) :
  In x (ids (sql_delete pk t)) -> In x (ids t) /\ x <> pk.
Proof.
  unfold ids, sql_delete; rewrite !in_map_iff.
  intros [y [E Hy]]; apply filter_In in Hy; destruct Hy as [Hy Hne].
  apply negb_true_iff, Z.eqb_neq in Hne.
  split; [exists y; tauto | congruence].
Qed.

Lemma value_eqb_refl (v : value) : value_eqb v v = true.
Proof.
  destruct v; cbn; [apply Z.eqb_refl | apply String.eqb_refl ..].
Qed.

(** An UPDATE of the key alone leaves the other columns as they are. *)
Lemma written_set_id (k : Z) (r : Student.t) :
  written r (Student.set_id k r) = Student.set_id k r.
Proof.
  unfold written, Student.set_id; cbn [Student.id Student.name Student.email
                                       Student.age].
  now rewrite value_eqb_refl.
Qed.

(** An UPDATE that goes through leaves a table as it should be. *)
Lemma sql_update_ok (pk : Z) (new : Student.t) (t t' : table) :
  table_ok t -> 1 <= Student.id new ->
  sql_update pk new t = Return t' -> table_ok t'.
Proof.
  intros Hok Hpos; unfold sql_update.
  destruct (select_pk pk t) as [old|] eqn:Hsel; [| discriminate].
  destruct (negb (Student.id new =? pk) && has_pk (Student.id new) t)
    eqn:Hpk; [discriminate |].
  destruct (negb (String.eqb (Student.email new) (Student.email old))
            && has_email (Student.email new) t) eqn:Hem; [discriminate |].
  intros H; injection H as <-.
  pose proof (sql_delete_ok pk t Hok) as [Ho Hr He].
  pose proof (place_Permutation Student.id (written old new)
                (sql_delete pk t)) as Hperm.
  apply select_pk_Some in Hsel; destruct Hsel as [Hin Hid].
  split.
  - apply place_ascending; [exact Ho |].
    change (Student.id (written old new)) with (Student.id new).
    fold (ids (sql_delete pk t)); intros Hx.
    apply sql_delete_ids in Hx; destruct Hx as [Hx Hne].
    apply andb_false_iff in Hpk; destruct Hpk as [Hpk | Hpk].
    + apply negb_false_iff, Z.eqb_eq in Hpk; contradiction.
    + apply has_pk_false in Hpk; contradiction.
  - eapply Permutation_Forall; [symmetry; exact Hperm |].
    constructor; assumption.
  - unfold emails.
    eapply Permutation_NoDup;
      [symmetry; apply Permutation_map; exact Hperm |].
    cbn [map]; change (Student.email (written old new))
      with (Student.email new).
    constructor; [| exact He].
    intros Hx; apply in_map_iff in Hx; destruct Hx as [y [E Hy]].
    apply filter_In in Hy; destruct Hy as [Hy Hne].
    apply negb_true_iff, Z.eqb_neq in Hne.
    apply andb_false_iff in Hem; destruct Hem as [Hem | Hem].
    + apply negb_false_iff, String.eqb_eq in Hem.
      destruct Hok as [_ _ Hnd].
      assert (y = old)
        by (apply (NoDup_map_injective Student.email t);
            [exact Hnd | exact Hy | exact Hin | congruence]).
      congruence.
    + apply has_email_false in Hem; apply Hem.
      rewrite <- E; now apply in_map.
Qed.

Lemma sql_insert_ok (row : string * string * string) (t t' : table) :
  table_ok t -> sql_insert row t = Return t' -> table_ok t'.
Proof.
  intros [Ho Hr He]; destruct row as [[n e] a]; unfold sql_insert.
  destruct (has_email e t) eqn:Hem; [discriminate |].
  intros H; injection H as <-.
  pose proof (place_Permutation Student.id
                (Student.mk (next_rowid t) n e (integer_affinity a)) t)
    as Hperm.
  apply has_email_false in Hem; split.
  - apply place_ascending; [exact Ho |]; cbn.
    intros Hx; apply in_map_iff in Hx; destruct Hx as [y [E Hy]].
    pose proof (next_rowid_above t) as Hab; rewrite Forall_forall in Hab.
    specialize (Hab y Hy); lia.
  - eapply Permutation_Forall; [symmetry; exact Hperm |].
    constructor; [cbn; now apply next_rowid_from_1 | exact Hr].
  - unfold emails.
    eapply Permutation_NoDup;
      [symmetry; apply Permutation_map; exact Hperm |].
    cbn; constructor; assumption.
Qed.

(* ================================================================= *)
(** ** Facts about renumbering *)

Lemma renumber_dirty_keys (k : Z) (l : list Student.t) :
  map fst (renumber_dirty k l) = ids l.
Proof.
  unfold renumber_dirty; revert k; induction l as [|a l IH]; intros k; cbn;
    [reflexivity | now rewrite IH].
Qed.

Lemma renumber_payload (k : Z) (l : list Student.t) :
  map Student.payload (renumber k l) = map Student.payload l.
Proof.
  unfold renumber; revert k; induction l as [|a l IH]; intros k; cbn;
    [reflexivity | now rewrite IH].
Qed.

Lemma renumber_emails (k : Z) (l : list Student.t) :
  emails (renumber k l) = emails l.
Proof.
  unfold renumber, emails; revert k; induction l as [|a l IH]; intros k; cbn;
    [reflexivity | now rewrite IH].
Qed.

Lemma renumber_ids (k : nat) (l : list Student.t) :
  ids (renumber (Z.of_nat k) l) = map Z.of_nat (seq k (List.length l)).
Proof.
  unfold renumber, ids; revert k; induction l as [|a l IH]; intros k; cbn;
    [reflexivity |].
  f_equal; replace (Z.of_nat k + 1) with (Z.of_nat (S k)) by lia; apply IH.
Qed.

Lemma renumber_bounds (k : Z) (l : list Student.t) :
  Forall (fun r => k <= Student.id r) (renumber k l).
Proof.
  unfold renumber; revert k; induction l as [|a l IH]; intros k; cbn;
    constructor; [cbn; lia |].
  eapply Forall_impl; [| apply IH]; cbn; intros; lia.
Qed.

Lemma renumber_ascending (k : Z) (l : list Student.t) :
  ascending Student.id (renumber k l).
Proof.
  revert k; induction l as [|a l IH]; intros k; [constructor |].
  change (renumber k (a :: l))
    with (Student.set_id k a :: renumber (k + 1) l).
  apply ascending_cons; split; [| apply IH].
  eapply Forall_impl; [| apply renumber_bounds]; cbn; intros; lia.
Qed.

Lemma renumber_ok (l : list Student.t) :
  NoDup (emails l) -> table_ok (renumber 1 l).
Proof.
  intros H; split.
  - apply renumber_ascending.
  - apply renumber_bounds.
  - now rewrite renumber_emails.
Qed.

Lemma record_dirty_fresh (key : Z) (obj : Student.t)
      (d : list (Z * Student.t)) :
  Forall (fun e => fst e <> key) d ->
  record_dirty key obj d = d ++ [(key, obj)].
Proof.
  induction 1 as [|[k o] d Hk _ IH]; cbn; [reflexivity |].
  cbn in Hk; apply Z.eqb_neq in Hk; now rewrite Hk, IH.
Qed.

(** The loop of lines 128-129 over rows in ascending order of key. *)
Lemma for_each_renumber (l : list Student.t) :
  forall (k : Z) (af : bool) (d t : table) (di : list (Z * Student.t)),
    ascending Student.id l ->
    (forall e y, In e di -> In y l -> fst e < Student.id y) ->
    for_each (enumerate k l)
      (fun '(i, s) => setattr s (Student.set_id i) ;; ret tt)
      (mkSession af d t [] di [])
    = (Return tt, mkSession af d t [] (di ++ renumber_dirty k l) []).
Proof.
  induction l as [|a l IH]; intros k af d t di Hs Hd; cbn.
  - unfold ret; now rewrite app_nil_r.
  - apply ascending_cons in Hs; destruct Hs as [Ha Hs].
    rewrite record_dirty_fresh.
    + rewrite IH; [| exact Hs |].
      * unfold renumber_dirty; cbn; now rewrite <- app_assoc.
      * intros e y He Hy; apply in_app_or in He; destruct He as [He | He].
        -- apply Hd; [exact He | now right].
        -- destruct He as [<- | []]; cbn.
           rewrite Forall_forall in Ha; now apply Ha.
    + apply Forall_forall; intros e He.
      specialize (Hd e a He (or_introl eq_refl)); lia.
Qed.

(** The UPDATEs of a renumbering, run in the order of the old keys on a
    table whose first rows already have the keys up to [k]. *)
Lemma run_updates_renumber (l2 : list Student.t) :
  forall (k : Z) (l1 : list Student.t),
    Forall (fun y => Student.id y <= k) l1 ->
    Forall (fun y => k < Student.id y) l2 ->
    ascending Student.id l2 ->
    run_updates (renumber_dirty (k + 1) l2) (l1 ++ l2)
    = Return (l1 ++ renumber (k + 1) l2).
Proof.
  induction l2 as [|r l2 IH]; intros k l1 H1 H2 Hs.
  - reflexivity.
  - apply ascending_cons in Hs; destruct Hs as [Hr Hs].
    apply Forall_cons_iff in H2; destruct H2 as [Hk H2].
    change (renumber_dirty (k + 1) (r :: l2))
      with ((Student.id r, Student.set_id (k + 1) r)
              :: renumber_dirty (k + 1 + 1) l2).
    change (renumber (k + 1) (r :: l2))
      with (Student.set_id (k + 1) r :: renumber (k + 1 + 1) l2).
    cbn [run_updates]; unfold sql_update.
    rewrite select_pk_skip
      by (eapply Forall_impl; [| exact H1]; cbn; intros; lia).
    unfold select_pk at 1; cbn [find]; rewrite Z.eqb_refl.
    rewrite written_set_id.
    cbn [Student.id Student.set_id Student.email].
    rewrite String.eqb_refl; cbn [negb andb].
    assert (Hpk : negb (k + 1 =? Student.id r)
                  && has_pk (k + 1) (l1 ++ r :: l2) = false).
    { destruct (Z.eqb_spec (k + 1) (Student.id r)) as [E | E];
        [reflexivity |]; cbn [negb andb].
      apply has_pk_false; unfold ids; rewrite map_app; cbn [map].
      intros Hin; apply in_app_or in Hin.
      destruct Hin as [Hin | [Hin | Hin]].
      - apply in_map_iff in Hin; destruct Hin as [y [E' Hy]].
        rewrite Forall_forall in H1; specialize (H1 y Hy); lia.
      - lia.
      - apply in_map_iff in Hin; destruct Hin as [y [E' Hy]].
        rewrite Forall_forall in Hr; specialize (Hr y Hy); lia. }
    rewrite Hpk, sql_delete_split.
    + rewrite place_between.
      * replace (l1 ++ Student.set_id (k + 1) r :: l2)
          with ((l1 ++ [Student.set_id (k + 1) r]) ++ l2)
          by (now rewrite <- app_assoc).
        rewrite IH; [now rewrite <- app_assoc | | | exact Hs].
        -- apply Forall_app; split;
             [eapply Forall_impl; [| exact H1]; cbn; intros; lia |].
           constructor; [cbn; lia | constructor].
        -- eapply Forall_impl; [| exact Hr]; cbn; intros; lia.
      * eapply Forall_impl; [| exact H1]; cbn; intros; lia.
      * eapply Forall_impl; [| exact Hr]; cbn; intros; lia.
    + eapply Forall_impl; [| exact H1]; cbn; intros; lia.
    + exact Hr.
Qed.

(* ================================================================= *)
(** ** Facts about the session *)

Lemma bind_return {A B : Type} (m : M A) (k : A -> M B) (s s' : session)
      (a : A) :
  m s = (Return a, s') -> (x <- m ;; k x) s = k a s'.
Proof. intros H; unfold bind; now rewrite H. Qed.

Lemma bind_raise {A B : Type} (m : M A) (k : A -> M B) (s s' : session)
      (e : exn) :
  m s = (Raise e, s') -> (x <- m ;; k x) s = (Raise e, s').
Proof. intros H; unfold bind; now rewrite H. Qed.

(** One statement of a handler that returns. *)
Ltac step_with lem :=
  erewrite bind_return by (eapply lem; eassumption); cbv beta.
Ltac step := erewrite bind_return by reflexivity; cbv beta.

Lemma before_query_clean (af : bool) (d t : table) :
  before_query (mkSession af d t [] [] [])
  = (Return tt, mkSession af d t [] [] []).
Proof. now destruct af. Qed.

Lemma map_loaded_clean (af : bool) (d t : table) (l : list Student.t) :
  map (loaded (mkSession af d t [] [] [])) l = l.
Proof. induction l as [|a l IH]; cbn; [reflexivity | now rewrite IH]. Qed.

Lemma get_or_404_found (af : bool) (d t : table) (id : Z) (r : Student.t) :
  select_pk id t = Some r ->
  get_or_404 id (mkSession af d t [] [] [])
  = (Return r, mkSession af d t [] [] []).
Proof.
  intros H; unfold get_or_404.
  erewrite bind_return by apply before_query_clean.
  cbv beta; cbn [tx]; now rewrite H.
Qed.

Lemma get_or_404_missing (af : bool) (d t : table) (id : Z) :
  select_pk id t = None ->
  get_or_404 id (mkSession af d t [] [] [])
  = (Raise (absent id), mkSession af d t [] [] []).
Proof.
  intros H; unfold get_or_404, absent.
  erewrite bind_return by apply before_query_clean.
  cbv beta; cbn [tx]; rewrite H; now destruct (int64 id).
Qed.

Lemma query_all_clean (af : bool) (d t : table) :
  query_all (mkSession af d t [] [] [])
  = (Return t, mkSession af d t [] [] []).
Proof.
  unfold query_all.
  erewrite bind_return by apply before_query_clean.
  cbn [tx]; now rewrite map_loaded_clean.
Qed.

Lemma query_order_by_id_clean (af : bool) (d t : table) :
  ascending Student.id t ->
  query_order_by_id (mkSession af d t [] [] [])
  = (Return t, mkSession af d t [] [] []).
Proof.
  intros H; unfold query_order_by_id.
  erewrite bind_return by apply before_query_clean.
  cbn [tx]; now rewrite map_loaded_clean, order_by_ascending.
Qed.

Lemma commit_delete (af : bool) (d t : table) (pk : Z) :
  commit (mkSession af d t [] [] [pk])
  = (Return tt, mkSession af (sql_delete pk t) (sql_delete pk t) [] [] []).
Proof. reflexivity. Qed.

Lemma commit_renumber (af : bool) (d t : table) :
  ascending Student.id t ->
  Forall (fun r => 1 <= Student.id r) t ->
  commit (mkSession af d t [] (renumber_dirty 1 t) [])
  = (Return tt, mkSession af (renumber 1 t) (renumber 1 t) [] [] []).
Proof.
  intros Ho Hr; unfold commit, flush, unit_of_work, bind; cbn [dirty tx new].
  rewrite order_by_ascending
    by (unfold ascending; rewrite renumber_dirty_keys; exact Ho).
  change (run_updates (renumber_dirty 1 t) t)
    with (run_updates (renumber_dirty (0 + 1) t) ([] ++ t)).
  rewrite run_updates_renumber; [reflexivity | constructor | | exact Ho].
  eapply Forall_impl; [| exact Hr]; cbn; intros; lia.
Qed.

Lemma delete_student_run (db : table) (id : Z) (r : Student.t) :
  table_ok db -> select_pk id db = Some r ->
  serve (delete_student id) db
  = (Return (redirect url_for_index), renumber 1 (sql_delete id db)).
Proof.
  intros Hok Hsel.
  pose proof (sql_delete_ok id db Hok) as [Ho Hr He].
  apply select_pk_Some in Hsel as Hid; destruct Hid as [_ Hid].
  unfold serve, delete_student, db_session.
  step_with get_or_404_found.
  step; cbn [autoflush disk tx new dirty deleted app].
  erewrite bind_return by apply commit_delete.
  rewrite Hid.
  erewrite bind_return by (apply query_order_by_id_clean; exact Ho).
  erewrite bind_return
    by (apply for_each_renumber; [exact Ho | intros e y []]).
  cbn [app].
  erewrite bind_return by (apply commit_renumber; assumption).
  reflexivity.
Qed.

(* ================================================================= *)
(** ** What each handler computes *)

Lemma index_run (db : table) :
  serve index db = (Return (render_index db), db).
Proof.
  unfold serve, index, db_session.
  now erewrite bind_return by apply query_all_clean.
Qed.

Lemma add_student_get_run (f : form_data) (db : table) :
  serve (add_student (mkRequest GET f)) db = (Return render_add, db).
Proof. reflexivity. Qed.

(** A POST to [/add] that carries the three fields is one INSERT. *)
Lemma add_student_post_run (f : form_data) (n e a : string) (db : table) :
  form_getitem f "name" = Some n ->
  form_getitem f "email" = Some e ->
  form_getitem f "age" = Some a ->
  serve (add_student (post f)) db
  = match sql_insert (n, e, a) db with
    | Return db' => (Return (redirect url_for_index), db')
    | Raise ex => (Raise ex, db)
    end.
Proof.
  intros Hn He Ha.
  unfold serve, add_student, post, request_form, db_session.
  cbn [method form]; rewrite Hn, He, Ha.
  unfold bind, ret, session_add, commit, flush, unit_of_work, bind.
  cbn -[sql_insert].
  now destruct (sql_insert (n, e, a) db).
Qed.

Lemma overwrite_absent (pk : Z) (new : Student.t) (t : table) :
  Forall (fun y => Student.id y <> pk) t -> overwrite pk new t = t.
Proof.
  unfold overwrite; induction 1 as [|a t Ha _ IH]; cbn; [reflexivity |].
  now apply Z.eqb_neq in Ha; rewrite Ha, IH.
Qed.

(** An UPDATE that keeps the key writes the row in place. *)
Lemma sql_update_in_place (pk : Z) (old new : Student.t) (t t' : table) :
  ascending Student.id t ->
  select_pk pk t = Some old ->
  Student.id new = pk ->
  sql_update pk new t = Return t' ->
  t' = overwrite pk (written old new) t.
Proof.
  intros Ho Hsel Hid; unfold sql_update; rewrite Hsel, Hid, Z.eqb_refl.
  cbn [negb andb].
  destruct (negb (String.eqb (Student.email new) (Student.email old))
            && has_email (Student.email new) t); [discriminate |].
  intros H; injection H as <-.
  assert (Hw : Student.id (written old new) = pk) by exact Hid.
  generalize dependent (written old new); intros w Hw.
  destruct (table_split pk t old Ho Hsel) as [l1 [l2 [-> [H1 H2]]]].
  apply select_pk_Some in Hsel; destruct Hsel as [_ Hold]; subst pk.
  rewrite sql_delete_split by assumption.
  rewrite place_between.
  - unfold overwrite; rewrite map_app; cbn [map]; rewrite Z.eqb_refl.
    fold (overwrite (Student.id old) w l1).
    fold (overwrite (Student.id old) w l2).
    rewrite !overwrite_absent; [reflexivity | |].
    + eapply Forall_impl; [| exact H2]; cbn; intros; lia.
    + eapply Forall_impl; [| exact H1]; cbn; intros; lia.
  - rewrite Hw; exact H1.
  - rewrite Hw; eapply Forall_impl; [| exact H2]; cbn; intros; lia.
Qed.

(** A POST to [/edit/<id>] for a row that exists, carrying the three
    fields: the query of line 99 first flushes the assignments of lines
    94-96 as one UPDATE. *)
Lemma edit_student_post_run (id : Z) (r : Student.t) (f : form_data)
      (n e a : string) (db : table) :
  select_pk id db = Some r ->
  form_getitem f "name" = Some n ->
  form_getitem f "email" = Some e ->
  form_getitem f "age" = Some a ->
  serve (edit_student id (post f)) db
  = match sql_update id (Student.mk id n e (Text a)) db with
    | Raise ex => (Raise ex, db)
    | Return db' =>
        match find (other_with_email e id) db' with
        | Some _ =>
            (Return (render_edit (Student.mk id n e (Text a))
                       (Some "Email already exists!")), db)
        | None => (Return (redirect url_for_index), db')
        end
    end.
Proof.
  intros Hsel Hn He Ha.
  apply select_pk_Some in Hsel as Hid; destruct Hid as [_ Hid].
  unfold serve, edit_student, post, request_form, db_session.
  cbn [method form]; rewrite Hn, He, Ha.
  step_with get_or_404_found.
  do 6 step.
  unfold Student.set_age, Student.set_email, Student.set_name.
  repeat (cbn [autoflush disk tx new dirty deleted Student.id Student.name
               Student.email Student.age record_dirty];
          rewrite Z.eqb_refl).
  rewrite Hid.
  unfold query_filter_first, before_query, flush, unit_of_work, bind.
  cbn -[sql_update find].
  destruct (sql_update id (Student.mk id n e (Text a)) db) as [db'|ex];
    [| reflexivity].
  cbn -[find]; change (fun r0 : Student.t =>
            String.eqb (Student.email r0) e && negb (Student.id r0 =? id))
    with (other_with_email e id).
  now destruct (find (other_with_email e id) db').
Qed.


Lemma edit_student_missing_run (id : Z) (req : request) (db : table) :
  select_pk id db = None ->
  serve (edit_student id req) db = (Raise (absent id), db).
Proof.
  intros H; unfold serve, edit_student, db_session.
  now erewrite bind_raise by (apply get_or_404_missing; exact H).
Qed.

Lemma edit_student_get_run (id : Z) (r : Student.t) (f : form_data)
      (db : table) :
  select_pk id db = Some r ->
  serve (edit_student id (mkRequest GET f)) db
  = (Return (render_edit r None), db).
Proof.
  intros H; unfold serve, edit_student, db_session.
  now step_with get_or_404_found.
Qed.

Lemma delete_student_missing_run (id : Z) (db : table) :
  select_pk id db = None ->
  serve (delete_student id) db = (Raise (absent id), db).
Proof.
  intros H; unfold serve, delete_student, db_session.
  now erewrite bind_raise by (apply get_or_404_missing; exact H).
Qed.

(** *** What a request can do to the committed table *)

Lemma add_student_frame (req : request) (db : table) :
  snd (serve (add_student req) db) = db \/
  exists row,
    sql_insert row db = Return (snd (serve (add_student req) db)).
Proof.
  destruct req as [[|] f]; [now left |].
  destruct (form_getitem f "name") as [n|] eqn:Hn;
    [destruct (form_getitem f "email") as [e|] eqn:He;
     [destruct (form_getitem f "age") as [a|] eqn:Ha |] |].
  - fold (post f); rewrite (add_student_post_run f n e a db Hn He Ha).
    destruct (sql_insert (n, e, a) db) as [db'|ex] eqn:Hins;
      [right; exists (n, e, a); exact Hins | now left].
  - left; unfold serve, add_student, request_form; cbn [method form].
    now rewrite Hn, He, Ha.
  - left; unfold serve, add_student, request_form; cbn [method form].
    now rewrite Hn, He.
  - left; unfold serve, add_student, request_form; cbn [method form].
    now rewrite Hn.
Qed.

Lemma edit_student_frame (id : Z) (req : request) (db : table) :
  snd (serve (edit_student id req) db) = db \/
  exists r n e a,
    select_pk id db = Some r /\
    sql_update id (Student.mk id n e (Text a)) db
    = Return (snd (serve (edit_student id req) db)).
Proof.
  destruct (select_pk id db) as [r|] eqn:Hsel;
    [| left; now rewrite edit_student_missing_run].
  destruct req as [[|] f];
    [left; now rewrite (edit_student_get_run id r) |].
  destruct (form_getitem f "name") as [n|] eqn:Hn;
    [destruct (form_getitem f "email") as [e|] eqn:He;
     [destruct (form_getitem f "age") as [a|] eqn:Ha |] |].
  - fold (post f).
    rewrite (edit_student_post_run id r f n e a db Hsel Hn He Ha).
    destruct (sql_update id (Student.mk id n e (Text a)) db) as [db'|ex] eqn:Hup;
      [| now left].
    destruct (find (other_with_email e id) db'); [now left |].
    right; exists r, n, e, a; split; [reflexivity | exact Hup].
  - left; unfold serve, edit_student, request_form, db_session.
    cbn [method form]; rewrite Hn, He, Ha.
    step_with get_or_404_found; reflexivity.
  - left; unfold serve, edit_student, request_form, db_session.
    cbn [method form]; rewrite Hn, He.
    step_with get_or_404_found; reflexivity.
  - left; unfold serve, edit_student, request_form, db_session.
    cbn [method form]; rewrite Hn.
    step_with get_or_404_found; reflexivity.
Qed.

(* ================================================================= *)
(** ** The table stays as it should be *)

Lemma increasingb_ascending (t : table) :
  increasingb (ids t) = true -> ascending Student.id t.
Proof.
  induction t as [|a t IH]; cbn; intros H; [constructor |].
  apply andb_true_iff in H; destruct H as [Hf Hs].
  apply ascending_cons; split; [| exact (IH Hs)].
  rewrite forallb_forall in Hf; apply Forall_forall; intros y Hy.
  apply Z.ltb_lt, Hf; unfold ids; now apply in_map.
Qed.

Lemma distinctb_NoDup (l : list string) : distinctb l = true -> NoDup l.
Proof.
  induction l as [|e l IH]; cbn; intros H; constructor;
    apply andb_true_iff in H; destruct H as [Hn Hd]; [| exact (IH Hd)].
  intros Hin; apply negb_true_iff in Hn.
  assert (existsb (String.eqb e) l = true); [| congruence].
  apply existsb_exists; exists e; split; [exact Hin | apply String.eqb_refl].
Qed.

Lemma table_okb_ok (t : table) : table_okb t = true -> table_ok t.
Proof.
  unfold table_okb; intros H.
  apply andb_true_iff in H; destruct H as [H He].
  apply andb_true_iff in H; destruct H as [Ho Hr].
  split.
  - now apply increasingb_ascending.
  - rewrite forallb_forall in Hr; apply Forall_forall; intros y Hy.
    now apply Z.leb_le, Hr.
  - now apply distinctb_NoDup.
Qed.

Lemma table_ok_nil : table_ok [].
Proof. split; constructor. Qed.

Lemma table_ok_key (t : table) (r : Student.t) :
  table_ok t -> In r t -> 1 <= Student.id r.
Proof. intros [_ Hr _] Hin; rewrite Forall_forall in Hr; now apply Hr. Qed.

Lemma app_ok (r : route) (db : table) :
  table_ok db -> table_ok (snd (app r db)).
Proof.
  intros Hok; destruct r as [|req|id req|id]; cbn [app].
  - now rewrite index_run.
  - destruct (add_student_frame req db) as [-> | [row Hins]];
      [exact Hok | exact (sql_insert_ok row db _ Hok Hins)].
  - destruct (id <? 0); [exact Hok |].
    destruct (edit_student_frame id req db)
      as [-> | [r [n [e [a [Hsel Hup]]]]]]; [exact Hok |].
    apply (sql_update_ok id (Student.mk id n e (Text a)) db); [exact Hok | | exact Hup].
    apply select_pk_Some in Hsel; destruct Hsel as [Hin <-].
    exact (table_ok_key db r Hok Hin).
  - destruct (id <? 0); [exact Hok |].
    destruct (select_pk id db) as [r|] eqn:Hsel.
    + rewrite (delete_student_run db id r Hok Hsel); cbn [snd].
      apply renumber_ok; now destruct (sql_delete_ok id db Hok).
    + now rewrite delete_student_missing_run.
Qed.

Lemma reachable_ok (db : table) : reachable db -> table_ok db.
Proof.
  induction 1 as [|r db _ IH]; [exact table_ok_nil | now apply app_ok].
Qed.

Lemma select_pk_stored (t : table) (s : Student.t) :
  table_ok t -> In s t -> select_pk (Student.id s) t = Some s.
Proof.
  intros Hok Hin.
  destruct (select_pk_In (Student.id s) t) as [r Hr];
    [unfold ids; now apply in_map |].
  rewrite Hr; f_equal.
  apply select_pk_Some in Hr; destruct Hr as [Hrin Hrid].
  apply (NoDup_map_injective Student.id t);
    [apply ascending_NoDup, Hok | exact Hrin | exact Hin | exact Hrid].
Qed.

Lemma route_accepts (t : table) (id : Z) (r : Student.t) :
  table_ok t -> select_pk id t = Some r -> (id <? 0) = false.
Proof.
  intros Hok Hsel; apply select_pk_Some in Hsel; destruct Hsel as [Hin <-].
  pose proof (table_ok_key t r Hok Hin); lia.
Qed.

Lemma sql_delete_length (t : table) (id : Z) (r : Student.t) :
  ascending Student.id t -> select_pk id t = Some r ->
  List.length (sql_delete id t) = (List.length t - 1)%nat.
Proof.
  intros Ho Hsel.
  destruct (table_split id t r Ho Hsel) as [l1 [l2 [-> [H1 H2]]]].
  apply select_pk_Some in Hsel; destruct Hsel as [_ <-].
  rewrite sql_delete_split by assumption.
  rewrite !length_app; cbn; lia.
Qed.

(** In a table as it should be, no other row has the email of a row. *)
Lemma no_other_with_email (t : table) (r : Student.t) :
  table_ok t -> In r t ->
  find (other_with_email (Student.email r) (Student.id r)) t = None.
Proof.
  intros Hok Hin.
  destruct (find (other_with_email (Student.email r) (Student.id r)) t)
    as [y|] eqn:Hf; [exfalso | reflexivity].
  apply find_some in Hf; destruct Hf as [Hy Hc]; unfold other_with_email in Hc.
  apply andb_true_iff in Hc; destruct Hc as [He Hn].
  apply String.eqb_eq in He; apply negb_true_iff, Z.eqb_neq in Hn.
  apply Hn; f_equal.
  apply (NoDup_map_injective Student.email t);
    [apply Hok | exact Hy | exact Hin | exact He].
Qed.

(** An edit whose UPDATE goes through commits it and redirects. *)
Lemma edit_student_updates (id : Z) (r : Student.t) (f : form_data)
      (n e a : string) (db db' : table) :
  table_ok db ->
  select_pk id db = Some r ->
  form_getitem f "name" = Some n ->
  form_getitem f "email" = Some e ->
  form_getitem f "age" = Some a ->
  sql_update id (Student.mk id n e (Text a)) db = Return db' ->
  serve (edit_student id (post f)) db = (Return (redirect url_for_index), db')
  /\ db' = overwrite id (written r (Student.mk id n e (Text a))) db.
Proof.
  intros Hok Hsel Hn He Ha Hup.
  rewrite (edit_student_post_run id r f n e a db Hsel Hn He Ha), Hup.
  assert (Hok' : table_ok db').
  { apply (sql_update_ok id (Student.mk id n e (Text a)) db);
      [exact Hok | | exact Hup].
    apply select_pk_Some in Hsel as [Hin <-].
    exact (table_ok_key db r Hok Hin). }
  assert (Hov : db' = overwrite id (written r (Student.mk id n e (Text a))) db)
    by (apply (sql_update_in_place id r); [apply Hok | exact Hsel | | exact Hup];
        reflexivity).
  assert (Hin : In (written r (Student.mk id n e (Text a))) db').
  { rewrite Hov; unfold overwrite; apply in_map_iff; exists r.
    apply select_pk_Some in Hsel as [Hin Hid].
    now apply Z.eqb_eq in Hid as ->. }
  pose proof (no_other_with_email db' _ Hok' Hin) as Hnone.
  change (Student.email (written r (Student.mk id n e (Text a)))) with e
    in Hnone.
  change (Student.id (written r (Student.mk id n e (Text a)))) with id
    in Hnone.
  rewrite Hnone.
  split; [reflexivity | exact Hov].
Qed.

(** An edit to the email of another row: the UPDATE that the query of line
    99 flushes fails on the unique constraint, and the exception leaves the
    handler at line 99, outside the [try] of line 107. *)
Lemma edit_student_collision (id : Z) (r other : Student.t) (f : form_data)
      (n a : string) (db : table) :
  table_ok db ->
  select_pk id db = Some r ->
  In other db -> Student.id other <> id ->
  form_getitem f "name" = Some n ->
  form_getitem f "email" = Some (Student.email other) ->
  form_getitem f "age" = Some a ->
  serve (edit_student id (post f)) db
  = (Raise (IntegrityError "UNIQUE constraint failed: student.email"), db).
Proof.
  intros Hok Hsel Hin Hne Hn He Ha.
  rewrite (edit_student_post_run id r f n _ a db Hsel Hn He Ha).
  unfold sql_update; rewrite Hsel; cbn [Student.id Student.email].
  rewrite Z.eqb_refl; cbn [negb andb].
  apply select_pk_Some in Hsel; destruct Hsel as [Hrin Hrid].
  assert (Hdiff : String.eqb (Student.email other) (Student.email r) = false).
  { apply String.eqb_neq; intros E; apply Hne; rewrite <- Hrid; f_equal.
    apply (NoDup_map_injective Student.email db);
      [apply Hok | exact Hin | exact Hrin | exact E]. }
  assert (Hhas : has_email (Student.email other) db = true)
    by (apply has_email_true; unfold emails; now apply in_map).
  now rewrite Hdiff, Hhas.
Qed.

(** With a session that does not flush before a query, the same request
    reaches line 105: the query sees the table without the assignments. *)
Lemma edit_student_collision_without_autoflush (id : Z) (r other : Student.t)
      (f : form_data) (n a : string) (db : table) :
  select_pk id db = Some r ->
  find (other_with_email (Student.email other) id) db = Some other ->
  form_getitem f "name" = Some n ->
  form_getitem f "email" = Some (Student.email other) ->
  form_getitem f "age" = Some a ->
  exists s,
    edit_student id (post f) (mkSession false db db [] [] [])
    = (Return (render_edit (Student.mk id n (Student.email other) (Text a))
                 (Some "Email already exists!")), s)
    /\ disk s = db.
Proof.
  intros Hsel Hfind Hn He Ha.
  apply select_pk_Some in Hsel as Hid; destruct Hid as [_ Hid].
  unfold edit_student, post, request_form.
  cbn [method form]; rewrite Hn, He, Ha.
  step_with get_or_404_found.
  do 6 step.
  unfold Student.set_age, Student.set_email, Student.set_name.
  repeat (cbn [autoflush disk tx new dirty deleted Student.id Student.name
               Student.email Student.age record_dirty];
          rewrite Z.eqb_refl).
  rewrite Hid.
  unfold query_filter_first, before_query, bind.
  cbn -[find].
  change (fun r0 : Student.t =>
            String.eqb (Student.email r0) (Student.email other)
            && negb (Student.id r0 =? id))
    with (other_with_email (Student.email other) id).
  rewrite Hfind; cbn.
  eexists; split; reflexivity.
Qed.

(* ================================================================= *)
(** ** Facts about the age column *)

(** How some texts are read. *)
Lemma integer_affinity_samples :
  integer_affinity "20" = Integer 20 /\
  integer_affinity "020" = Integer 20 /\
  integer_affinity " -7 " = Integer (-7) /\
  integer_affinity "9223372036854775807" = Integer (2 ^ 63 - 1) /\
  integer_affinity "9223372036854775808" = Numeric "9223372036854775808" /\
  integer_affinity "1.5" = Numeric "1.5" /\
  integer_affinity "1e3" = Numeric "1e3" /\
  integer_affinity "twenty" = Text "twenty" /\
  integer_affinity "20 years" = Text "20 years" /\
  integer_affinity "1e" = Text "1e" /\
  integer_affinity "" = Text "".
Proof. repeat split. Qed.

Lemma integer_affinity_Text (a s : string) :
  integer_affinity a = Text s -> s = a.
Proof.
  unfold integer_affinity; destruct (number_literal a) as [z| |];
    [destruct (int64 z) | |]; intros H; now inversion H.
Qed.

Lemma integer_affinity_keeps (a : string) :
  column_keeps a (integer_affinity a).
Proof.
  unfold column_keeps, integer_affinity; split.
  - now intros z -> ->.
  - now intros ->.
Qed.

(** What the column keeps of a text is a value that the column can hold. *)
Lemma integer_affinity_from_column (a : string) :
  from_column (integer_affinity a).
Proof.
  unfold from_column; destruct (integer_affinity a) as [z|l|s] eqn:E;
    [reflexivity | reflexivity |].
  pose proof (integer_affinity_Text a s E); subst s; exact E.
Qed.

Lemma value_eqb_Text (a : string) (v : value) :
  value_eqb (Text a) v = true -> v = Text a.
Proof.
  destruct v; cbn; try discriminate.
  now intros H; apply String.eqb_eq in H as ->.
Qed.

(** Over a row whose age the column can hold, an edit leaves the age that
    the column keeps of the submitted text. *)
Lemma written_from_column (s : Student.t) (n e a : string) :
  from_column (Student.age s) ->
  written s (Student.mk (Student.id s) n e (Text a))
  = Student.mk (Student.id s) n e (integer_affinity a).
Proof.
  intros H; unfold written; cbn [Student.id Student.name Student.email
                                 Student.age column_affinity].
  destruct (value_eqb (Text a) (Student.age s)) eqn:E; [| reflexivity].
  apply value_eqb_Text in E; rewrite E in *; f_equal.
  symmetry; exact H.
Qed.

Lemma column_affinity_from_column (v : value) :
  from_column (column_affinity v).
Proof.
  destruct v as [z|l|s]; [reflexivity | reflexivity |].
  apply integer_affinity_from_column.
Qed.

(** Every age in a reachable table is a value that the column can hold. *)
Lemma app_ages (r : route) (db : table) :
  table_ok db ->
  Forall (fun y => from_column (Student.age y)) db ->
  Forall (fun y => from_column (Student.age y)) (snd (app r db)).
Proof.
  intros Hok Hc; destruct r as [|req|id req|id]; cbn [app].
  - now rewrite index_run.
  - destruct (add_student_frame req db) as [-> | [[[n e] a] Hins]];
      [exact Hc |].
    unfold sql_insert in Hins; destruct (has_email e db); [discriminate |].
    injection Hins as <-.
    eapply Permutation_Forall; [symmetry; apply place_Permutation |].
    constructor; [apply integer_affinity_from_column | exact Hc].
  - destruct (id <? 0); [exact Hc |].
    destruct (edit_student_frame id req db)
      as [-> | [r [n [e [a [Hsel Hup]]]]]]; [exact Hc |].
    rewrite (sql_update_in_place id r (Student.mk id n e (Text a)) db _
               (ok_order db Hok) Hsel eq_refl Hup).
    unfold overwrite; apply Forall_forall; intros y Hy.
    apply in_map_iff in Hy; destruct Hy as [x [<- Hx]].
    rewrite Forall_forall in Hc.
    destruct (Student.id x =? id); [| now apply Hc].
    unfold written; cbn [Student.age].
    destruct (value_eqb (Text a) (Student.age r));
      [| apply column_affinity_from_column].
    apply Hc; now apply select_pk_Some in Hsel.
  - destruct (id <? 0); [exact Hc |].
    destruct (select_pk id db) as [r|] eqn:Hsel;
      [| now rewrite delete_student_missing_run].
    rewrite (delete_student_run db id r Hok Hsel); cbn [snd].
    assert (Hd : Forall (fun y => from_column (Student.age y))
                   (sql_delete id db)).
    { rewrite Forall_forall in *; intros y Hy; apply filter_In in Hy.
      apply Hc; tauto. }
    revert Hd; unfold renumber; generalize 1; generalize (sql_delete id db).
    intros l; induction l as [|y l IH]; intros k Hd; cbn; [constructor |].
    apply Forall_cons_iff in Hd; destruct Hd as [Hy Hd].
    constructor; [exact Hy | now apply IH].
Qed.

Lemma reachable_ages (db : table) :
  reachable db -> Forall (fun y => from_column (Student.age y)) db.
Proof.
  induction 1 as [|r db Hr IH]; [constructor |].
  apply app_ages; [now apply reachable_ok | exact IH].
Qed.

(* ================================================================= *)
(** ** The properties of the specification *)

(** C1.  In a table as it should be (keys ascending from 1 up, emails
    distinct: every reachable table, by [reachable_ok]), deleting a key that
    is present answers with the redirect to the list and leaves the rows
    other than the deleted one, in the order of their former keys and with
    name, email and age untouched, under the keys 1, 2, ..., n, where n is
    the number of rows before less one; the list page then shows exactly
    that table. *)
Theorem delete_student_renumbers (db : table) (id : Z) :
  table_ok db -> In id (ids db) ->
  let survivors :=
    order_by Student.id (filter (fun r => negb (Student.id r =? id)) db) in
  exists db',
    app (Delete id) db = (Return (redirect "/"), db') /\
    List.length survivors = (List.length db - 1)%nat /\
    ids db' = one_to (List.length survivors) /\
    map Student.payload db' = map Student.payload survivors /\
    app Index db' = (Return (render_index db'), db').
Proof.
  intros Hok Hin survivors.
  destruct (select_pk_In id db Hin) as [r Hsel].
  assert (Hs : survivors = sql_delete id db)
    by (apply order_by_ascending, (sql_delete_ok id db Hok)).
  exists (renumber 1 survivors); rewrite Hs; repeat split.
  - cbn [app]; rewrite (route_accepts db id r Hok Hsel).
    exact (delete_student_run db id r Hok Hsel).
  - apply (sql_delete_length db id r); [apply Hok | exact Hsel].
  - exact (renumber_ids 1 (sql_delete id db)).
  - apply renumber_payload.
  - apply index_run.
Qed.

Lemma delete_student_renumbers_witness :
  exists db',
    app (Delete 2) [alice; bob; carol] = (Return (redirect "/"), db') /\
    List.length (order_by Student.id
                   (filter (fun r => negb (Student.id r =? 2))
                      [alice; bob; carol]))
    = (List.length [alice; bob; carol] - 1)%nat /\
    ids db'
    = one_to (List.length
                (order_by Student.id
                   (filter (fun r => negb (Student.id r =? 2))
                      [alice; bob; carol]))) /\
    map Student.payload db'
    = map Student.payload
        (order_by Student.id
           (filter (fun r => negb (Student.id r =? 2)) [alice; bob; carol]))
    /\ app Index db' = (Return (render_index db'), db').
Proof.
  apply (delete_student_renumbers [alice; bob; carol] 2).
  - apply table_okb_ok; reflexivity.
  - cbn; tauto.
Defined.

(** C3.  When a row of the table has the submitted email, a POST to [/add]
    raises the integrity error of the unique constraint and the table is
    the one before. *)
Theorem add_duplicate_email_fails (db : table) (f : form_data)
        (n e a : string) :
  form_getitem f "name" = Some n ->
  form_getitem f "email" = Some e ->
  form_getitem f "age" = Some a ->
  In e (emails db) ->
  app (Add (post f)) db
  = (Raise (IntegrityError "UNIQUE constraint failed: student.email"), db).
Proof.
  intros Hn He Ha Hin; cbn [app].
  rewrite (add_student_post_run f n e a db Hn He Ha); unfold sql_insert.
  now apply has_email_true in Hin as ->.
Qed.

Lemma add_duplicate_email_fails_witness :
  app (Add (post (student_form "Carol" "a@x.com" "22"))) [alice; bob]
  = (Raise (IntegrityError "UNIQUE constraint failed: student.email"),
     [alice; bob]).
Proof.
  apply (add_duplicate_email_fails [alice; bob] _ "Carol" "a@x.com" "22");
    [reflexivity | reflexivity | reflexivity | cbn; tauto].
Defined.

(** C4.  From the empty table: adding Alice gives her the key 1, adding Bob
    gives him the key 2, deleting the key 1 leaves Bob under the key 1, and
    the list page shows that one row.  (The ages are submitted as the texts
    ["20"] and ["21"] and kept as the integers 20 and 21.) *)
Theorem scenario_add_add_delete :
  app (Add (post (student_form "Alice" "a@x.com" "20"))) []
  = (Return (redirect "/"), [Student.mk 1 "Alice" "a@x.com" (Integer 20)]) /\
  app (Add (post (student_form "Bob" "b@x.com" "21")))
      [Student.mk 1 "Alice" "a@x.com" (Integer 20)]
  = (Return (redirect "/"),
     [Student.mk 1 "Alice" "a@x.com" (Integer 20);
      Student.mk 2 "Bob" "b@x.com" (Integer 21)])
  /\
  app (Delete 1)
      [Student.mk 1 "Alice" "a@x.com" (Integer 20);
       Student.mk 2 "Bob" "b@x.com" (Integer 21)]
  = (Return (redirect "/"), [Student.mk 1 "Bob" "b@x.com" (Integer 21)]) /\
  app Index [Student.mk 1 "Bob" "b@x.com" (Integer 21)]
  = (Return (render_index [Student.mk 1 "Bob" "b@x.com" (Integer 21)]),
     [Student.mk 1 "Bob" "b@x.com" (Integer 21)]).
Proof. repeat split; vm_compute; reflexivity. Qed.

(** C5.  In every table that requests make of the empty one, no two rows
    have the same email. *)
Theorem emails_unique (db : table) : reachable db -> NoDup (emails db).
Proof. intros H; apply reachable_ok, H. Qed.

Lemma emails_unique_witness :
  NoDup (emails (snd (app (Add (post (student_form "Bob" "b@x.com" "21")))
                        (snd (app (Add (post (student_form "Alice" "a@x.com"
                                                "20"))) []))))).
Proof.
  apply emails_unique; apply reach_step, reach_step, reach_empty.
Defined.






(** C9.  The list page and the GET of the edit form leave the table as it
    was; the list page shows all of it. *)
Theorem reads_do_not_write (db : table) (id : Z) (f : form_data) :
  app Index db = (Return (render_index db), db) /\
  snd (app (Edit id (mkRequest GET f)) db) = db.
Proof.
  split; [apply index_run |].
  cbn [app]; destruct (id <? 0); [reflexivity |].
  destruct (select_pk id db) as [r|] eqn:Hsel.
  - now rewrite (edit_student_get_run id r).
  - now rewrite edit_student_missing_run.
Qed.

(** C10 (as stated, refuted).  The age submitted as the text ["020"] is
    not stored as that text: the row has the integer 20. *)
Lemma add_numeral_age_is_not_kept_as_text :
  app (Add (post (student_form "Alice" "a@x.com" "020"))) []
  = (Return (redirect "/"), [Student.mk 1 "Alice" "a@x.com" (Integer 20)])
  /\ Student.age (Student.mk 1 "Alice" "a@x.com" (Integer 20)) <> Text "020".
Proof. split; [vm_compute; reflexivity | discriminate]. Qed.

(** C10 (amended).  The add flow neither converts nor checks the age: with
    a name that is not empty and an email that no row has (and a table whose
    next key is a 64-bit integer), a POST to [/add] redirects to the list
    whatever the text of the age is, and the table afterwards is the rows
    before and one new row whose age is what the integer column keeps of
    that text: the integer it writes when it is a 64-bit integer literal,
    the text itself when it is not a number literal. *)
Theorem add_stores_age_as_submitted (db : table) (f : form_data)
        (n e a : string) :
  form_getitem f "name" = Some n ->
  form_getitem f "email" = Some e ->
  form_getitem f "age" = Some a ->
  n <> "" ->
  ~ In e (emails db) ->
  next_rowid db < 2 ^ 63 ->
  exists db' stored,
    app (Add (post f)) db = (Return (redirect "/"), db') /\
    Permutation db' (Student.mk (next_rowid db) n e stored :: db) /\
    column_keeps a stored.
Proof.
  intros Hn He Ha _ Hfresh _; cbn [app].
  rewrite (add_student_post_run f n e a db Hn He Ha); unfold sql_insert.
  apply has_email_false in Hfresh as ->.
  exists (place Student.id
            (Student.mk (next_rowid db) n e (integer_affinity a)) db),
    (integer_affinity a).
  split; [reflexivity |].
  split; [apply place_Permutation | apply integer_affinity_keeps].
Qed.

Lemma add_stores_age_as_submitted_witness :
  exists db' stored,
    app (Add (post (student_form "Carol" "c@x.com" "twenty"))) [alice; bob]
    = (Return (redirect "/"), db') /\
    Permutation db'
      (Student.mk (next_rowid [alice; bob]) "Carol" "c@x.com" stored
         :: [alice; bob]) /\
    column_keeps "twenty" stored.
Proof.
  apply (add_stores_age_as_submitted [alice; bob]
           (student_form "Carol" "c@x.com" "twenty") "Carol" "c@x.com").
  - reflexivity.
  - reflexivity.
  - reflexivity.
  - discriminate.
  - cbn; intros [H | [H | []]]; discriminate H.
  - reflexivity.
Defined.

(** C2.  On the table of Alice (key 1) and Bob (key 2), a POST to the edit
    route of the key 1 that submits Bob's email is answered by the
    integrity error of the unique constraint (status 500), not by the edit
    form with its message; the table is the one before. *)
Theorem edit_duplicate_email_raises :
  app (Edit 1 (post (student_form "Alice" "b@x.com" "20"))) [alice; bob]
  = (Raise (IntegrityError "UNIQUE constraint failed: student.email"),
     [alice; bob])
  /\ http_status
       (fst (app (Edit 1 (post (student_form "Alice" "b@x.com" "20")))
               [alice; bob])) = 500.
Proof. split; vm_compute; reflexivity. Qed.

(** C8.  A POST to [/add] with the empty text as name stores a row whose
    name is empty, and so does a POST to the edit route. *)
Theorem empty_name_is_stored :
  app (Add (post (student_form "" "a@x.com" "20"))) []
  = (Return (redirect "/"), [Student.mk 1 "" "a@x.com" (Integer 20)]) /\
  app (Edit 1 (post (student_form "" "a@x.com" "20"))) [alice]
  = (Return (redirect "/"), [Student.mk 1 "" "a@x.com" (Integer 20)]).
Proof. split; vm_compute; reflexivity. Qed.

(* ================================================================= *)
(** ** Further facts: keys without gaps *)

Lemma one_to_S (n : nat) : one_to (S n) = one_to n ++ [Z.of_nat (S n)].
Proof. unfold one_to; now rewrite seq_S, map_app. Qed.

Lemma in_one_to (n : nat) (m : Z) :
  In m (one_to n) <-> 1 <= m <= Z.of_nat n.
Proof.
  unfold one_to; rewrite in_map_iff; split.
  - intros [i [<- Hi]]; apply in_seq in Hi; lia.
  - intros H; exists (Z.to_nat m); split; [lia | apply in_seq; lia].
Qed.

Lemma max_rowid_In (t : table) (m : Z) :
  max_rowid t = Some m -> In m (ids t).
Proof.
  revert m; induction t as [|a t IH]; cbn; intros m H; [discriminate |].
  destruct (max_rowid t) as [m'|].
  - injection H as <-.
    destruct (Z.max_spec (Student.id a) m') as [[_ ->] | [_ ->]];
      [right; now apply IH | now left].
  - injection H as <-; now left.
Qed.

Lemma next_rowid_no_gap (t : table) :
  ids t = one_to (List.length t) ->
  next_rowid t = Z.of_nat (List.length t) + 1.
Proof.
  intros Hc; pose proof (next_rowid_above t) as Hab.
  unfold next_rowid in *; destruct (max_rowid t) as [m|] eqn:Hm.
  - apply max_rowid_In in Hm; rewrite Hc in Hm.
    apply in_one_to in Hm.
    assert (Hn : In (Z.of_nat (List.length t)) (ids t))
      by (rewrite Hc; apply in_one_to; lia).
    apply in_map_iff in Hn; destruct Hn as [y [Hy Hin]].
    rewrite Forall_forall in Hab; specialize (Hab y Hin); lia.
  - destruct t as [|a t]; [reflexivity |].
    cbn in Hm; destruct (max_rowid t); discriminate.
Qed.

(** Into a table without gaps, an INSERT puts its row last, under the
    number of rows plus one. *)
Lemma sql_insert_no_gap (t : table) (n e a : string) :
  ids t = one_to (List.length t) ->
  has_email e t = false ->
  sql_insert (n, e, a) t
  = Return (t ++ [Student.mk (Z.of_nat (List.length t) + 1) n e
                    (integer_affinity a)]).
Proof.
  intros Hc He; unfold sql_insert; rewrite He.
  pose proof (place_between Student.id
                (Student.mk (next_rowid t) n e (integer_affinity a))
                t [] (next_rowid_above t) (Forall_nil _)) as Hp.
  rewrite app_nil_r in Hp; rewrite Hp.
  now rewrite (next_rowid_no_gap t Hc).
Qed.

Lemma overwrite_ids (pk : Z) (new : Student.t) (t : table) :
  Student.id new = pk -> ids (overwrite pk new t) = ids t.
Proof.
  intros Hid; unfold overwrite, ids; induction t as [|a t IH]; cbn;
    [reflexivity |].
  rewrite IH; f_equal.
  destruct (Z.eqb_spec (Student.id a) pk); congruence.
Qed.

Lemma overwrite_length (pk : Z) (new : Student.t) (t : table) :
  List.length (overwrite pk new t) = List.length t.
Proof. apply length_map. Qed.

Lemma renumber_size (k : Z) (l : list Student.t) :
  List.length (renumber k l) = List.length l.
Proof.
  unfold renumber; revert k; induction l as [|a l IH]; intros k; cbn;
    [reflexivity | now rewrite IH].
Qed.

Lemma app_no_gap (r : route) (db : table) :
  table_ok db ->
  ids db = one_to (List.length db) ->
  ids (snd (app r db)) = one_to (List.length (snd (app r db))).
Proof.
  intros Hok Hc; destruct r as [|req|id req|id]; cbn [app].
  - now rewrite index_run.
  - destruct (add_student_frame req db) as [-> | [[[n e] a] Hins]];
      [exact Hc |].
    destruct (has_email e db) eqn:He;
      [unfold sql_insert in Hins; rewrite He in Hins; discriminate |].
    rewrite (sql_insert_no_gap db n e a Hc He) in Hins.
    injection Hins as <-.
    unfold ids; rewrite map_app, last_length, one_to_S; cbn [map Student.id].
    fold (ids db); rewrite Hc; do 2 f_equal; lia.
  - destruct (id <? 0); [exact Hc |].
    destruct (edit_student_frame id req db)
      as [-> | [r [n [e [a [Hsel Hup]]]]]]; [exact Hc |].
    rewrite (sql_update_in_place id r (Student.mk id n e (Text a)) db _
               (ok_order db Hok) Hsel eq_refl Hup).
    now rewrite overwrite_ids, overwrite_length.
  - destruct (id <? 0); [exact Hc |].
    destruct (select_pk id db) as [r|] eqn:Hsel.
    + rewrite (delete_student_run db id r Hok Hsel); cbn [snd].
      rewrite renumber_size; exact (renumber_ids 1 (sql_delete id db)).
    + now rewrite delete_student_missing_run.
Qed.

Lemma reachable_no_gap (db : table) :
  reachable db -> ids db = one_to (List.length db).
Proof.
  induction 1 as [|r db Hr IH]; [reflexivity |].
  apply app_no_gap; [now apply reachable_ok | exact IH].
Qed.

Lemma counts_from_seq (l : list Student.t) :
  forall k : nat,
    ids l = map Z.of_nat (seq k (List.length l)) ->
    counts_from (Z.of_nat k) l.
Proof.
  induction l as [|a l IH]; intros k H; cbn; [exact I |].
  cbn in H; injection H as Ha Hl; split; [exact Ha |].
  replace (Z.of_nat k + 1) with (Z.of_nat (S k)) by lia; now apply IH.
Qed.

Lemma counts_from_above (l : list Student.t) :
  forall k, counts_from k l -> Forall (fun r => k <= Student.id r) l.
Proof.
  induction l as [|a l IH]; intros k H; [constructor |].
  destruct H as [Ha Hl]; constructor; [lia |].
  eapply Forall_impl; [| exact (IH _ Hl)]; cbn; intros; lia.
Qed.

Lemma set_own_id (r : Student.t) : Student.set_id (Student.id r) r = r.
Proof. now destruct r. Qed.

(** Renumbering rows that follow a gap moves each one key down. *)
Lemma renumber_after_gap (l : list Student.t) :
  forall k,
    counts_from (k + 1) l ->
    renumber k l = map (fun r => Student.set_id (Student.id r - 1) r) l.
Proof.
  induction l as [|a l IH]; intros k H; [reflexivity |].
  destruct H as [Ha Hl].
  change (renumber k (a :: l))
    with (Student.set_id k a :: renumber (k + 1) l).
  cbn [map]; rewrite (IH _ Hl); f_equal; f_equal; lia.
Qed.

(** Renumbering a table without gaps from which one key was deleted. *)
Lemma renumber_close_gap (l : list Student.t) :
  forall k pk,
    k <= pk -> counts_from k l ->
    renumber k (sql_delete pk l) = map (close_gap pk) (sql_delete pk l).
Proof.
  induction l as [|a l IH]; intros k pk Hk H; [reflexivity |].
  destruct H as [Ha Hl]; pose proof (counts_from_above l _ Hl) as Hab.
  unfold sql_delete; cbn [filter]; fold (sql_delete pk l).
  destruct (Z.eqb_spec (Student.id a) pk) as [E | E]; cbn [negb].
  - rewrite sql_delete_absent
      by (eapply Forall_impl; [| exact Hab]; cbn; intros; lia).
    rewrite (renumber_after_gap l k Hl); apply map_ext_in; intros r Hr.
    unfold close_gap; rewrite Forall_forall in Hab; specialize (Hab r Hr).
    destruct (Z.ltb_spec (Student.id r) pk); [lia | reflexivity].
  - change (renumber k (a :: sql_delete pk l))
      with (Student.set_id k a :: renumber (k + 1) (sql_delete pk l)).
    cbn [map]; rewrite (IH (k + 1) pk) by (assumption || lia).
    f_equal; unfold close_gap.
    destruct (Z.ltb_spec (Student.id a) pk); [| lia].
    rewrite <- Ha; apply set_own_id.
Qed.

Lemma renumber_no_gap (l : list Student.t) :
  forall k, counts_from k l -> renumber k l = l.
Proof.
  induction l as [|a l IH]; intros k H; [reflexivity |].
  destruct H as [Ha Hl].
  change (renumber k (a :: l))
    with (Student.set_id k a :: renumber (k + 1) l).
  rewrite (IH _ Hl), <- Ha; f_equal; apply set_own_id.
Qed.

(* ================================================================= *)
(** ** Further facts: forms with a field missing, and what an edit does *)

Lemma first_missing_None (f : form_data) :
  first_missing f = None ->
  exists n e a,
    form_getitem f "name" = Some n /\
    form_getitem f "email" = Some e /\
    form_getitem f "age" = Some a.
Proof.
  unfold first_missing; cbn [find].
  destruct (form_getitem f "name") as [n|]; [| discriminate].
  destruct (form_getitem f "email") as [e|]; [| discriminate].
  destruct (form_getitem f "age") as [a|]; [| discriminate].
  intros _; now exists n, e, a.
Qed.

Lemma add_student_missing_field_run (f : form_data) (k : string)
      (db : table) :
  first_missing f = Some k ->
  serve (add_student (post f)) db = (Raise (BadRequestKeyError k), db).
Proof.
  unfold first_missing; cbn [find]; intros H.
  unfold serve, add_student, post, request_form; cbn [method form].
  destruct (form_getitem f "name") as [n|];
    [destruct (form_getitem f "email") as [e|];
     [destruct (form_getitem f "age") as [a|]; [discriminate |] |] |];
    injection H as <-; reflexivity.
Qed.

Lemma edit_student_missing_field_run (id : Z) (r : Student.t)
      (f : form_data) (k : string) (db : table) :
  select_pk id db = Some r ->
  first_missing f = Some k ->
  serve (edit_student id (post f)) db = (Raise (BadRequestKeyError k), db).
Proof.
  unfold first_missing; cbn [find]; intros Hsel H.
  unfold serve, edit_student, post, request_form, db_session.
  cbn [method form]; step_with get_or_404_found.
  destruct (form_getitem f "name") as [n|];
    [destruct (form_getitem f "email") as [e|];
     [destruct (form_getitem f "age") as [a|]; [discriminate |] |] |];
    injection H as <-; reflexivity.
Qed.

(** A request to [/add] writes only when it redirects. *)
Lemma add_student_outcome (req : request) (db : table) :
  fst (serve (add_student req) db) = Return (redirect url_for_index) \/
  snd (serve (add_student req) db) = db.
Proof.
  destruct req as [[|] f]; [now right |]; fold (post f).
  destruct (first_missing f) as [k|] eqn:Hm;
    [right; now rewrite (add_student_missing_field_run f k) |].
  destruct (first_missing_None f Hm) as [n [e [a [Hn [He Ha]]]]].
  rewrite (add_student_post_run f n e a db Hn He Ha).
  destruct (sql_insert (n, e, a) db); [now left | now right].
Qed.

(** A request to [/edit/<id>] writes only when it redirects. *)
Lemma edit_student_outcome (id : Z) (req : request) (db : table) :
  fst (serve (edit_student id req) db) = Return (redirect url_for_index) \/
  snd (serve (edit_student id req) db) = db.
Proof.
  destruct (select_pk id db) as [r|] eqn:Hsel;
    [| right; now rewrite edit_student_missing_run].
  destruct req as [[|] f];
    [right; now rewrite (edit_student_get_run id r) |]; fold (post f).
  destruct (first_missing f) as [k|] eqn:Hm;
    [right; now rewrite (edit_student_missing_field_run id r f k) |].
  destruct (first_missing_None f Hm) as [n [e [a [Hn [He Ha]]]]].
  rewrite (edit_student_post_run id r f n e a db Hsel Hn He Ha).
  destruct (sql_update id (Student.mk id n e (Text a)) db) as [db'|ex];
    [| now right].
  destruct (find (other_with_email e id) db'); [now right | now left].
Qed.

(** In a table as it should be, an edit that carries the three fields is
    its UPDATE: it fails with it, or commits it and redirects. *)
Lemma edit_student_post_outcome (id : Z) (r : Student.t) (f : form_data)
      (n e a : string) (db : table) :
  table_ok db ->
  select_pk id db = Some r ->
  form_getitem f "name" = Some n ->
  form_getitem f "email" = Some e ->
  form_getitem f "age" = Some a ->
  serve (edit_student id (post f)) db
  = match sql_update id (Student.mk id n e (Text a)) db with
    | Return db' => (Return (redirect url_for_index), db')
    | Raise ex => (Raise ex, db)
    end.
Proof.
  intros Hok Hsel Hn He Ha.
  destruct (sql_update id (Student.mk id n e (Text a)) db) as [db'|ex] eqn:Hup.
  - exact (proj1 (edit_student_updates id r f n e a db db'
                    Hok Hsel Hn He Ha Hup)).
  - now rewrite (edit_student_post_run id r f n e a db Hsel Hn He Ha), Hup.
Qed.

(** The email [e] is that of a row other than [s] exactly when it is not
    the email of [s] and some row has it. *)
Lemma email_of_another (t : table) (s : Student.t) (e : string) :
  table_ok t -> In s t ->
  existsb (other_with_email e (Student.id s)) t
  = negb (String.eqb e (Student.email s)) && has_email e t.
Proof.
  intros Hok Hin; apply Bool.eq_iff_eq_true.
  rewrite existsb_exists, andb_true_iff, negb_true_iff, String.eqb_neq,
    has_email_true.
  unfold other_with_email; split.
  - intros [y [Hy Hc]]; apply andb_true_iff in Hc; destruct Hc as [He Hn].
    apply String.eqb_eq in He; apply negb_true_iff, Z.eqb_neq in Hn.
    split; [| rewrite <- He; unfold emails; now apply in_map].
    intros E; apply Hn; f_equal.
    apply (NoDup_map_injective Student.email t);
      [apply Hok | exact Hy | exact Hin | congruence].
  - intros [Hne He]; unfold emails in He; apply in_map_iff in He.
    destruct He as [y [E Hy]]; exists y; split; [exact Hy |].
    apply andb_true_iff; split; [now apply String.eqb_eq |].
    apply negb_true_iff, Z.eqb_neq; intros Hid; apply Hne.
    assert (y = s)
      by (apply (NoDup_map_injective Student.id t);
          [apply ascending_NoDup, Hok | exact Hy | exact Hin | exact Hid]).
    congruence.
Qed.

Lemma place_overwrite (pk : Z) (old new : Student.t) (t : table) :
  ascending Student.id t ->
  select_pk pk t = Some old ->
  Student.id new = pk ->
  place Student.id new (sql_delete pk t) = overwrite pk new t.
Proof.
  intros Ho Hsel Hid.
  destruct (table_split pk t old Ho Hsel) as [l1 [l2 [-> [H1 H2]]]].
  apply select_pk_Some in Hsel; destruct Hsel as [_ Hold]; subst pk.
  rewrite sql_delete_split by assumption.
  rewrite place_between.
  - unfold overwrite; rewrite map_app; cbn [map]; rewrite Z.eqb_refl.
    fold (overwrite (Student.id old) new l1).
    fold (overwrite (Student.id old) new l2).
    rewrite !overwrite_absent; [reflexivity | |].
    + eapply Forall_impl; [| exact H2]; cbn; intros; lia.
    + eapply Forall_impl; [| exact H1]; cbn; intros; lia.
  - rewrite Hid; exact H1.
  - rewrite Hid; eapply Forall_impl; [| exact H2]; cbn; intros; lia.
Qed.

(** The UPDATE of an edit, in a table as it should be. *)
Lemma sql_update_fields (t : table) (s : Student.t) (n e a : string) :
  table_ok t -> In s t ->
  sql_update (Student.id s) (Student.mk (Student.id s) n e (Text a)) t
  = if existsb (other_with_email e (Student.id s)) t
    then Raise (IntegrityError "UNIQUE constraint failed: student.email")
    else Return (overwrite (Student.id s) (edited s n e a) t).
Proof.
  intros Hok Hin; pose proof (select_pk_stored t s Hok Hin) as Hsel.
  rewrite (email_of_another t s e Hok Hin).
  unfold sql_update; rewrite Hsel; cbn [Student.id Student.email].
  rewrite Z.eqb_refl; cbn [negb andb].
  destruct (negb (String.eqb e (Student.email s)) && has_email e t);
    [reflexivity |].
  fold (edited s n e a).
  now rewrite (place_overwrite (Student.id s) s (edited s n e a) t
                 (ok_order t Hok) Hsel eq_refl).
Qed.

(** Editing a row again with the same fields leaves the row of the first
    edit. *)
Lemma edited_again (s : Student.t) (n e a : string) :
  edited (edited s n e a) n e a = edited s n e a.
Proof.
  unfold edited, written; cbn [Student.id Student.name Student.email
                               Student.age column_affinity].
  f_equal.
  destruct (value_eqb (Text a) (Student.age s)) eqn:E.
  - now rewrite E.
  - now destruct (value_eqb (Text a) (integer_affinity a)).
Qed.

Lemma overwrite_same (t : table) (new : Student.t) :
  table_ok t -> In new t -> overwrite (Student.id new) new t = t.
Proof.
  intros Hok Hin; unfold overwrite.
  rewrite <- (map_id t) at 2; apply map_ext_in; intros y Hy.
  destruct (Z.eqb_spec (Student.id y) (Student.id new)) as [E | E];
    [| reflexivity].
  symmetry; apply (NoDup_map_injective Student.id t);
    [apply ascending_NoDup, Hok | exact Hy | exact Hin | exact E].
Qed.

Lemma overwrite_In (pk : Z) (old new : Student.t) (t : table) :
  select_pk pk t = Some old -> In new (overwrite pk new t).
Proof.
  intros Hsel; apply select_pk_Some in Hsel; destruct Hsel as [Hin Hid].
  unfold overwrite; apply in_map_iff; exists old.
  now apply Z.eqb_eq in Hid as ->.
Qed.

Lemma sql_delete_emails (t : table) (s : Student.t) :
  table_ok t -> In s t ->
  ~ In (Student.email s) (emails (sql_delete (Student.id s) t)).
Proof.
  intros Hok Hin Hx; unfold emails, sql_delete in Hx.
  apply in_map_iff in Hx; destruct Hx as [y [E Hy]].
  apply filter_In in Hy; destruct Hy as [Hy Hne].
  apply negb_true_iff, Z.eqb_neq in Hne; apply Hne; f_equal.
  apply (NoDup_map_injective Student.email t);
    [apply Hok | exact Hy | exact Hin | exact E].
Qed.

Lemma append_bracket (x y : string) :
  String.append x ">" = String.append y ">" -> x = y.
Proof.
  revert y; induction x as [|c x IH]; intros [|d y]; cbn; intros H.
  - reflexivity.
  - injection H as _ H; destruct y; discriminate H.
  - injection H as _ H; destruct x; discriminate H.
  - injection H as -> H; f_equal; now apply IH.
Qed.

(** A table of two rows that requests make of the empty one. *)
Lemma reachable_alice_bob : reachable [alice; bob].
Proof.
  exact (reach_step (Add (post (student_form "Bob" "b@x.com" "21"))) _
           (reach_step (Add (post (student_form "Alice" "a@x.com" "20"))) []
              reach_empty)).
Defined.

(* ================================================================= *)
(** ** Further properties of the handlers *)

(** X1.  In every table that requests make of the empty one the keys are
    1, 2, ..., n in the order of the rows, n being the number of rows:
    [add_student] gives out the next number and [delete_student] closes
    the gap it makes. *)
Theorem reachable_keys_without_gaps (db : table) :
  reachable db -> ids db = one_to (List.length db).
Proof. exact (reachable_no_gap db). Qed.

Lemma reachable_keys_without_gaps_witness :
  ids [alice; bob] = one_to (List.length [alice; bob]).
Proof.
  exact (reachable_keys_without_gaps [alice; bob] reachable_alice_bob).
Defined.

(** X2.  On a reachable table, a POST to [/add] with the three fields and
    an email that no row has redirects to the list and puts the new row
    last, under the number of rows plus one, with the submitted name and
    email and with the age that the integer column keeps of the submitted
    text. *)
Theorem add_student_appends (db : table) (f : form_data) (n e a : string) :
  reachable db ->
  form_getitem f "name" = Some n ->
  form_getitem f "email" = Some e ->
  form_getitem f "age" = Some a ->
  ~ In e (emails db) ->
  exists stored,
    app (Add (post f)) db
    = (Return (redirect "/"),
       db ++ [Student.mk (Z.of_nat (List.length db) + 1) n e stored]) /\
    column_keeps a stored.
Proof.
  intros Hr Hn He Ha Hfresh; cbn [app].
  rewrite (add_student_post_run f n e a db Hn He Ha).
  apply has_email_false in Hfresh.
  rewrite (sql_insert_no_gap db n e a (reachable_no_gap db Hr) Hfresh).
  exists (integer_affinity a); split;
    [reflexivity | apply integer_affinity_keeps].
Qed.

Lemma add_student_appends_witness :
  exists stored,
    app (Add (post (student_form "Carol" "c@x.com" "022"))) [alice; bob]
    = (Return (redirect "/"),
       [alice; bob]
         ++ [Student.mk (Z.of_nat (List.length [alice; bob]) + 1)
               "Carol" "c@x.com" stored]) /\
    column_keeps "022" stored.
Proof.
  apply (add_student_appends [alice; bob]
           (student_form "Carol" "c@x.com" "022")).
  - exact reachable_alice_bob.
  - reflexivity.
  - reflexivity.
  - reflexivity.
  - cbn; intros [H | [H | []]]; discriminate H.
Defined.

(** X3.  A POST to [/add] whose form lacks one of [name], [email], [age]
    raises the bad-request error of the first one it lacks, in that order
    (status 400), and stores nothing. *)
Theorem add_missing_field (db : table) (f : form_data) (k : string) :
  first_missing f = Some k ->
  app (Add (post f)) db = (Raise (BadRequestKeyError k), db) /\
  http_status (fst (app (Add (post f)) db)) = 400.
Proof.
  intros H; cbn [app].
  now rewrite (add_student_missing_field_run f k db H).
Qed.

Lemma add_missing_field_witness :
  app (Add (post [("name", "Carol"); ("age", "22")])) [alice; bob]
  = (Raise (BadRequestKeyError "email"), [alice; bob]) /\
  http_status
    (fst (app (Add (post [("name", "Carol"); ("age", "22")])) [alice; bob]))
  = 400.
Proof.
  apply (add_missing_field [alice; bob] [("name", "Carol"); ("age", "22")]).
  reflexivity.
Defined.

(** X4.  A POST to the edit route of a stored row whose form lacks one of
    the three fields raises the bad-request error of the first one it
    lacks; the fields assigned before it are not stored. *)
Theorem edit_missing_field (db : table) (s : Student.t) (f : form_data)
        (k : string) :
  table_ok db -> In s db ->
  first_missing f = Some k ->
  app (Edit (Student.id s) (post f)) db
  = (Raise (BadRequestKeyError k), db).
Proof.
  intros Hok Hin H.
  pose proof (select_pk_stored db s Hok Hin) as Hsel.
  cbn [app]; rewrite (route_accepts db _ s Hok Hsel).
  exact (edit_student_missing_field_run _ s f k db Hsel H).
Qed.

Lemma edit_missing_field_witness :
  app (Edit (Student.id bob)
         (post [("name", "Robert"); ("email", "r@x.com")])) [alice; bob]
  = (Raise (BadRequestKeyError "age"), [alice; bob]).
Proof.
  apply (edit_missing_field [alice; bob] bob
           [("name", "Robert"); ("email", "r@x.com")]).
  - apply table_okb_ok; reflexivity.
  - cbn; tauto.
  - reflexivity.
Defined.

(** X5.  For a row [s] of a table as it should be, whose age is a value
    that the column can hold, a POST to its edit route with the three
    fields has one of two outcomes: when a row other than [s] has the
    submitted email, the integrity error, with the table as before;
    otherwise the redirect to the list, with [s] overwritten under its own
    key by the submitted name and email and the age that the integer
    column keeps of the submitted text. *)
Theorem edit_post_outcome (db : table) (s : Student.t) (f : form_data)
        (n e a : string) :
  table_ok db -> In s db -> from_column (Student.age s) ->
  form_getitem f "name" = Some n ->
  form_getitem f "email" = Some e ->
  form_getitem f "age" = Some a ->
  exists stored,
    app (Edit (Student.id s) (post f)) db
    = (if existsb (other_with_email e (Student.id s)) db
       then (Raise (IntegrityError
                      "UNIQUE constraint failed: student.email"), db)
       else (Return (redirect "/"),
             overwrite (Student.id s)
               (Student.mk (Student.id s) n e stored) db)) /\
    column_keeps a stored.
Proof.
  intros Hok Hin Hage Hn He Ha.
  pose proof (select_pk_stored db s Hok Hin) as Hsel.
  cbn [app]; rewrite (route_accepts db _ s Hok Hsel).
  rewrite (edit_student_post_outcome _ s f n e a db Hok Hsel Hn He Ha).
  rewrite (sql_update_fields db s n e a Hok Hin).
  unfold edited; rewrite (written_from_column s n e a Hage).
  exists (integer_affinity a); split; [| apply integer_affinity_keeps].
  now destruct (existsb (other_with_email e (Student.id s)) db).
Qed.

Lemma edit_post_outcome_witness :
  exists stored,
    app (Edit (Student.id bob)
           (post (student_form "Robert" "r@x.com" "030")))
        [alice; bob]
    = (if existsb (other_with_email "r@x.com" (Student.id bob)) [alice; bob]
       then (Raise (IntegrityError
                      "UNIQUE constraint failed: student.email"),
             [alice; bob])
       else (Return (redirect "/"),
             overwrite (Student.id bob)
               (Student.mk (Student.id bob) "Robert" "r@x.com" stored)
               [alice; bob])) /\
    column_keeps "030" stored.
Proof.
  apply (edit_post_outcome [alice; bob] bob
           (student_form "Robert" "r@x.com" "030")).
  - apply table_okb_ok; reflexivity.
  - cbn; tauto.
  - reflexivity.
  - reflexivity.
  - reflexivity.
  - reflexivity.
Defined.

(** X6.  On a table as it should be, no request to the edit route is
    answered by the edit form with an error message: neither line 105 nor
    line 112 is ever the answer. *)
Theorem edit_never_reports_error (db : table) (id : Z) (req : request)
        (shown : Student.t) (msg : string) :
  table_ok db ->
  fst (app (Edit id req) db) <> Return (render_edit shown (Some msg)).
Proof.
  intros Hok; cbn [app]; destruct (id <? 0); [discriminate |].
  destruct (select_pk id db) as [r|] eqn:Hsel;
    [| rewrite edit_student_missing_run by exact Hsel; discriminate].
  destruct req as [[|] f];
    [rewrite (edit_student_get_run id r) by exact Hsel; discriminate |].
  fold (post f); destruct (first_missing f) as [k|] eqn:Hm.
  - rewrite (edit_student_missing_field_run id r f k db Hsel Hm).
    discriminate.
  - destruct (first_missing_None f Hm) as [n [e [a [Hn [He Ha]]]]].
    rewrite (edit_student_post_outcome id r f n e a db Hok Hsel Hn He Ha).
    destruct (sql_update id (Student.mk id n e (Text a)) db); discriminate.
Qed.

Lemma edit_never_reports_error_witness :
  fst (app (Edit 1 (post (student_form "Alice" "b@x.com" "20")))
         [alice; bob])
  <> Return (render_edit (Student.mk 1 "Alice" "b@x.com" (Text "20"))
               (Some "Email already exists!")).
Proof.
  apply (edit_never_reports_error [alice; bob]).
  apply table_okb_ok; reflexivity.
Defined.

(** X7.  On a table as it should be, a request to the edit route changes
    no key and no row other than the one of its key. *)
Theorem edit_touches_one_row (db : table) (id : Z) (req : request) :
  table_ok db ->
  ids (snd (app (Edit id req) db)) = ids db /\
  forall y, In y db -> Student.id y <> id ->
            In y (snd (app (Edit id req) db)).
Proof.
  intros Hok; cbn [app]; destruct (id <? 0); [now split |].
  destruct (edit_student_frame id req db)
    as [-> | [r [n [e [a [Hsel Hup]]]]]]; [now split |].
  rewrite (sql_update_in_place id r (Student.mk id n e (Text a)) db _
             (ok_order db Hok) Hsel eq_refl Hup).
  split; [now apply overwrite_ids |].
  intros y Hy Hne; unfold overwrite; apply in_map_iff; exists y.
  now apply Z.eqb_neq in Hne as ->.
Qed.

Lemma edit_touches_one_row_witness :
  ids (snd (app (Edit 2 (post (student_form "Robert" "r@x.com" "30")))
              [alice; bob])) = ids [alice; bob] /\
  forall y, In y [alice; bob] -> Student.id y <> 2 ->
            In y (snd (app (Edit 2 (post (student_form "Robert" "r@x.com"
                                            "30"))) [alice; bob])).
Proof.
  apply (edit_touches_one_row [alice; bob] 2).
  apply table_okb_ok; reflexivity.
Defined.

(** X8.  On a reachable table, deleting a key that is present leaves every
    other row with its name, email and age; a row below the deleted key
    keeps its key, a row above it moves one key down. *)
Theorem delete_closes_gap (db : table) (id : Z) :
  reachable db -> In id (ids db) ->
  app (Delete id) db
  = (Return (redirect "/"),
     map (close_gap id) (filter (fun r => negb (Student.id r =? id)) db)).
Proof.
  intros Hr Hin; pose proof (reachable_ok db Hr) as Hok.
  destruct (select_pk_In id db Hin) as [r Hsel].
  cbn [app]; rewrite (route_accepts db id r Hok Hsel).
  rewrite (delete_student_run db id r Hok Hsel).
  rewrite (renumber_close_gap db 1 id); [reflexivity | |].
  - apply select_pk_Some in Hsel; destruct Hsel as [Hrin <-].
    exact (table_ok_key db r Hok Hrin).
  - exact (counts_from_seq db 1 (reachable_no_gap db Hr)).
Qed.

Lemma delete_closes_gap_witness :
  app (Delete 1) [alice; bob]
  = (Return (redirect "/"),
     map (close_gap 1)
       (filter (fun r => negb (Student.id r =? 1)) [alice; bob])).
Proof.
  apply (delete_closes_gap [alice; bob] 1).
  - exact reachable_alice_bob.
  - cbn; tauto.
Defined.

(** X9.  On a reachable table, adding a student and then deleting the key
    it was given leaves the table exactly as it was before the two
    requests. *)
Theorem add_then_delete_restores (db : table) (f : form_data)
        (n e a : string) :
  reachable db ->
  form_getitem f "name" = Some n ->
  form_getitem f "email" = Some e ->
  form_getitem f "age" = Some a ->
  ~ In e (emails db) ->
  app (Delete (Z.of_nat (List.length db) + 1)) (snd (app (Add (post f)) db))
  = (Return (redirect "/"), db).
Proof.
  intros Hr Hn He Ha Hfresh.
  pose proof (reachable_no_gap db Hr) as Hc.
  pose proof (app_ok (Add (post f)) db (reachable_ok db Hr)) as Hok1.
  cbn [app] in Hok1 |- *.
  rewrite (add_student_post_run f n e a db Hn He Ha) in Hok1 |- *.
  apply has_email_false in Hfresh.
  rewrite (sql_insert_no_gap db n e a Hc Hfresh) in Hok1 |- *.
  cbn [snd] in Hok1 |- *.
  set (new := Student.mk (Z.of_nat (List.length db) + 1) n e
                (integer_affinity a)) in *.
  assert (Hbelow : Forall (fun y => Student.id y < Student.id new) db).
  { apply Forall_forall; intros y Hy; cbn.
    assert (Hi : In (Student.id y) (ids db)) by (unfold ids; now apply in_map).
    rewrite Hc in Hi; apply in_one_to in Hi; lia. }
  assert (Hsel : select_pk (Z.of_nat (List.length db) + 1) (db ++ [new])
                 = Some new).
  { rewrite select_pk_skip
      by (eapply Forall_impl; [| exact Hbelow]; cbn; intros; lia).
    unfold select_pk; cbn; now rewrite Z.eqb_refl. }
  rewrite (route_accepts _ _ new Hok1 Hsel).
  rewrite (delete_student_run _ _ new Hok1 Hsel).
  change (Z.of_nat (List.length db) + 1) with (Student.id new).
  rewrite (sql_delete_split new db []) by (exact Hbelow || constructor).
  rewrite app_nil_r, renumber_no_gap; [reflexivity |].
  exact (counts_from_seq db 1 Hc).
Qed.

Lemma add_then_delete_restores_witness :
  app (Delete (Z.of_nat (List.length [alice; bob]) + 1))
      (snd (app (Add (post (student_form "Carol" "c@x.com" "22")))
              [alice; bob]))
  = (Return (redirect "/"), [alice; bob]).
Proof.
  apply (add_then_delete_restores [alice; bob]
           (student_form "Carol" "c@x.com" "22") "Carol" "c@x.com" "22").
  - exact reachable_alice_bob.
  - reflexivity.
  - reflexivity.
  - reflexivity.
  - cbn; intros [H | [H | []]]; discriminate H.
Defined.

(** X10.  On a table as it should be, an edit that went through can be
    sent again: the second POST of the same form redirects too and leaves
    the table that the first one made. *)
Theorem edit_twice_same (db db' : table) (s : Student.t) (f : form_data)
        (n e a : string) :
  table_ok db -> In s db ->
  form_getitem f "name" = Some n ->
  form_getitem f "email" = Some e ->
  form_getitem f "age" = Some a ->
  app (Edit (Student.id s) (post f)) db = (Return (redirect "/"), db') ->
  app (Edit (Student.id s) (post f)) db' = (Return (redirect "/"), db').
Proof.
  intros Hok Hin Hn He Ha H.
  pose proof (select_pk_stored db s Hok Hin) as Hsel.
  pose proof (route_accepts db _ s Hok Hsel) as Hroute.
  cbn [app] in H |- *; rewrite Hroute in H |- *.
  rewrite (edit_student_post_outcome _ s f n e a db Hok Hsel Hn He Ha) in H.
  destruct (sql_update (Student.id s)
              (Student.mk (Student.id s) n e (Text a)) db)
    as [t|ex] eqn:Hup; [| discriminate].
  injection H as ->.
  assert (Hok' : table_ok db').
  { apply (sql_update_ok (Student.id s)
             (Student.mk (Student.id s) n e (Text a)) db);
      [exact Hok | | exact Hup].
    exact (table_ok_key db s Hok Hin). }
  assert (Hnew : In (edited s n e a) db').
  { rewrite (sql_update_in_place (Student.id s) s
               (Student.mk (Student.id s) n e (Text a)) db db'
               (ok_order db Hok) Hsel eq_refl Hup).
    exact (overwrite_In _ s _ db Hsel). }
  pose proof (select_pk_stored db' _ Hok' Hnew) as Hsel'.
  pose proof (sql_update_fields db' _ n e a Hok' Hnew) as Hf.
  rewrite (email_of_another db' _ e Hok' Hnew) in Hf.
  pose proof (overwrite_same db' _ Hok' Hnew) as Hsame.
  rewrite edited_again in Hf.
  change (Student.id (edited s n e a)) with (Student.id s)
    in Hsel', Hf, Hsame.
  change (Student.email (edited s n e a)) with e in Hf.
  rewrite String.eqb_refl in Hf; cbn [negb andb] in Hf.
  rewrite (edit_student_post_outcome _ _ f n e a db' Hok' Hsel' Hn He Ha).
  now rewrite Hf, Hsame.
Qed.

Lemma edit_twice_same_witness :
  app (Edit (Student.id bob) (post (student_form "Robert" "r@x.com" "30")))
      [alice; Student.mk 2 "Robert" "r@x.com" (Integer 30)]
  = (Return (redirect "/"),
     [alice; Student.mk 2 "Robert" "r@x.com" (Integer 30)]).
Proof.
  apply (edit_twice_same [alice; bob] _ bob
           (student_form "Robert" "r@x.com" "30") "Robert" "r@x.com" "30").
  - apply table_okb_ok; reflexivity.
  - cbn; tauto.
  - reflexivity.
  - reflexivity.
  - reflexivity.
  - reflexivity.
Defined.

(** X11.  On a table as it should be, once a row is deleted its email can
    be used again: a POST to [/add] with that email then redirects and
    stores a new row with it, beside the rows that were left. *)
Theorem delete_frees_email (db : table) (s : Student.t) (f : form_data)
        (n a : string) :
  table_ok db -> In s db ->
  form_getitem f "name" = Some n ->
  form_getitem f "email" = Some (Student.email s) ->
  form_getitem f "age" = Some a ->
  exists db'' new,
    app (Add (post f)) (snd (app (Delete (Student.id s)) db))
    = (Return (redirect "/"), db'') /\
    Permutation db'' (new :: snd (app (Delete (Student.id s)) db)) /\
    Student.name new = n /\ Student.email new = Student.email s.
Proof.
  intros Hok Hin Hn He Ha.
  pose proof (select_pk_stored db s Hok Hin) as Hsel.
  cbn [app]; rewrite (route_accepts db _ s Hok Hsel).
  rewrite (delete_student_run db _ s Hok Hsel); cbn [snd].
  rewrite (add_student_post_run f n _ a _ Hn He Ha); unfold sql_insert.
  assert (Hfree : has_email (Student.email s)
                    (renumber 1 (sql_delete (Student.id s) db)) = false)
    by (apply has_email_false; rewrite renumber_emails;
        exact (sql_delete_emails db s Hok Hin)).
  rewrite Hfree; do 2 eexists; split; [reflexivity |].
  split; [apply place_Permutation | now split].
Qed.

Lemma delete_frees_email_witness :
  exists db'' new,
    app (Add (post (student_form "Bobby" "b@x.com" "5")))
        (snd (app (Delete (Student.id bob)) [alice; bob]))
    = (Return (redirect "/"), db'') /\
    Permutation db''
      (new :: snd (app (Delete (Student.id bob)) [alice; bob])) /\
    Student.name new = "Bobby" /\ Student.email new = Student.email bob.
Proof.
  apply (delete_frees_email [alice; bob] bob
           (student_form "Bobby" "b@x.com" "5") "Bobby" "5").
  - apply table_okb_ok; reflexivity.
  - cbn; tauto.
  - reflexivity.
  - reflexivity.
  - reflexivity.
Defined.

(** X12.  On a table as it should be, a request of any route either is
    answered by the redirect to the list or leaves the table as it was:
    a page that is rendered and a request that fails have written
    nothing. *)
Theorem only_redirect_writes (db : table) (r : route) :
  table_ok db ->
  fst (app r db) = Return (redirect "/") \/ snd (app r db) = db.
Proof.
  intros Hok; destruct r as [|req|id req|id]; cbn [app].
  - right; now rewrite index_run.
  - apply add_student_outcome.
  - destruct (id <? 0); [now right | apply edit_student_outcome].
  - destruct (id <? 0); [now right |].
    destruct (select_pk id db) as [s|] eqn:Hsel.
    + left; now rewrite (delete_student_run db id s Hok Hsel).
    + right; now rewrite delete_student_missing_run.
Qed.

Lemma only_redirect_writes_witness :
  fst (app (Add (post (student_form "Carol" "a@x.com" "22"))) [alice; bob])
  = Return (redirect "/") \/
  snd (app (Add (post (student_form "Carol" "a@x.com" "22"))) [alice; bob])
  = [alice; bob].
Proof.
  apply (only_redirect_writes [alice; bob]).
  apply table_okb_ok; reflexivity.
Defined.

(** X13.  Two students print alike exactly when they have the same name:
    [__repr__] shows the name and nothing else of the row. *)
Theorem repr_by_name (s1 s2 : Student.t) :
  Student.__repr__ s1 = Student.__repr__ s2 <->
  Student.name s1 = Student.name s2.
Proof.
  unfold Student.__repr__; split; [| now intros ->].
  cbn; intros H; injection H as H; now apply append_bracket.
Qed.

(** X14.  For a row [s] of a table as it should be, a GET of its edit route
    shows the form filled with [s] itself, without a message. *)
Theorem edit_form_shows_stored_row (db : table) (s : Student.t)
        (f : form_data) :
  table_ok db -> In s db ->
  app (Edit (Student.id s) (mkRequest GET f)) db
  = (Return (render_edit s None), db).
Proof.
  intros Hok Hin; pose proof (select_pk_stored db s Hok Hin) as Hsel.
  cbn [app]; rewrite (route_accepts db _ s Hok Hsel).
  exact (edit_student_get_run _ s f db Hsel).
Qed.

Lemma edit_form_shows_stored_row_witness :
  app (Edit (Student.id bob) (mkRequest GET [])) [alice; bob]
  = (Return (render_edit bob None), [alice; bob]).
Proof.
  apply (edit_form_shows_stored_row [alice; bob] bob []).
  - apply table_okb_ok; reflexivity.
  - cbn; tauto.
Defined.

(** X15.  A form that was added cannot be added again: after a POST to
    [/add] with a fresh email, the same POST raises the integrity error and
    leaves the table that the first one made. *)
Theorem add_twice_fails (db : table) (f : form_data) (n e a : string) :
  form_getitem f "name" = Some n ->
  form_getitem f "email" = Some e ->
  form_getitem f "age" = Some a ->
  ~ In e (emails db) ->
  app (Add (post f)) (snd (app (Add (post f)) db))
  = (Raise (IntegrityError "UNIQUE constraint failed: student.email"),
     snd (app (Add (post f)) db)).
Proof.
  intros Hn He Ha Hfresh; cbn [app].
  assert (H1 : serve (add_student (post f)) db
               = (Return (redirect url_for_index),
                  place Student.id
                    (Student.mk (next_rowid db) n e (integer_affinity a)) db)).
  { rewrite (add_student_post_run f n e a db Hn He Ha); unfold sql_insert.
    now apply has_email_false in Hfresh as ->. }
  rewrite H1; cbn [snd].
  rewrite (add_student_post_run f n e a _ Hn He Ha); unfold sql_insert.
  assert (Hhas : has_email e
                   (place Student.id
                    (Student.mk (next_rowid db) n e (integer_affinity a)) db)
                 = true).
  { apply has_email_true; unfold emails.
    eapply Permutation_in;
      [symmetry; apply Permutation_map, place_Permutation |].
    now left. }
  now rewrite Hhas.
Qed.

Lemma add_twice_fails_witness :
  app (Add (post (student_form "Carol" "c@x.com" "22")))
      (snd (app (Add (post (student_form "Carol" "c@x.com" "22")))
              [alice; bob]))
  = (Raise (IntegrityError "UNIQUE constraint failed: student.email"),
     snd (app (Add (post (student_form "Carol" "c@x.com" "22")))
            [alice; bob])).
Proof.
  apply (add_twice_fails [alice; bob]
           (student_form "Carol" "c@x.com" "22") "Carol" "c@x.com" "22").
  - reflexivity.
  - reflexivity.
  - reflexivity.
  - cbn; intros [H | [H | []]]; discriminate H.
Defined.
